(** * panel-game: the client-side grid / query state model

    A shallow embedding of the stores ([utils/stores.ts]), the value types
    ([ItemSize], [Grid], [InferenceResult], [DisplayMode]), the result
    mapper ([PanelGridContainer.vue], [GridPanelItem.vue]) and the request
    orchestrator (the page component), followed by the properties the
    specification states about them.

    Conventions of the embedding.
    - A JavaScript [number] that the program uses as an index, a
      coordinate, a dimension, a count or a colour channel is an integer
      and is modelled as [Z].  The numeric value of a panel datum is a
      finite double; every finite double is a rational, so it is modelled
      as [Q] (binary rounding of arithmetic is not modelled).
    - A JavaScript array is a [list]; reading past its end yields
      [undefined] ([None]), writing past its end extends it and leaves
      holes.
    - A call that can throw returns a [completion]; an operation that
      mutates a store returns the new store. *)

From Stdlib Require Import ZArith QArith Qround Qabs Ascii Lia Lqa.
From stdpp Require Import base tactics option list list_numbers strings pretty.

Local Open Scope Z_scope.

(** ** JavaScript preliminaries *)

(** The exceptions of interest.  [TypeError] and [RangeError] are raised
    by the language itself (property access on [undefined], [Array(n)]
    with an invalid length), [FetchError] is what a failed [$fetch]
    rejects with.  [MappingError] is the error the
    specification names for a dimension mismatch; no path of the source
    constructs it. *)
Inductive js_error : Set := TypeError | RangeError | FetchError | MappingError.

Inductive completion (A : Type) : Type :=
  | Normal (a : A)
  | Throw (e : js_error).
Arguments Normal {A} a.
Arguments Throw {A} e.

(** [arr[i]] for an integer [i]: [None] stands for [undefined]. *)
Definition js_get {A : Type} (arr : list A) (i : Z) : option A :=
  if i <? 0 then None else arr !! Z.to_nat i.

(** The indices visited by [for (let i = 0; i < n; i++)]: 0, 1, ..., n-1,
    and none at all when [n <= 0]. *)
Definition for_indices (n : Z) : list Z := seqZ 0 n.

(** ** [ItemSize], [Rectangle] *)

Record ItemSize : Set := mkItemSize { rows : Z; cols : Z }.

Record Rectangle : Set := mkRectangle { width : Z; height : Z }.

(** ** The item inventory store ([useItemStore]) *)

Module ItemStore.

Record ItemSetting : Set := mkItemSetting { size : ItemSize; count : Z }.

Definition settings : Set := list ItemSetting.

(** The initial value of the [settings] ref. *)
Definition initial : settings :=
  [ mkItemSetting (mkItemSize 1 2) 0;
    mkItemSetting (mkItemSize 1 2) 0;
    mkItemSetting (mkItemSize 2 3) 0;
    mkItemSetting (mkItemSize 3 3) 0 ].

(** [settings.value[index].size]: a missing slot is [undefined], and
    reading a property of [undefined] throws a [TypeError]. *)
Definition getSize (s : settings) (index : Z) : completion ItemSize :=
  match js_get s index with
  | Some item => Normal (size item)
  | None => Throw TypeError
  end.

Definition getCount (s : settings) (index : Z) : completion Z :=
  match js_get s index with
  | Some item => Normal (count item)
  | None => Throw TypeError
  end.

(** [settings.value[index].size = size]: the slot is mutated in place;
    on a missing slot the assignment throws and nothing is written. *)
Definition setSize (s : settings) (index : Z) (sz : ItemSize)
  : completion settings :=
  match js_get s index with
  | Some item => Normal (<[Z.to_nat index := mkItemSetting sz (count item)]> s)
  | None => Throw TypeError
  end.

Definition setCount (s : settings) (index : Z) (n : Z)
  : completion settings :=
  match js_get s index with
  | Some item => Normal (<[Z.to_nat index := mkItemSetting (size item) n]> s)
  | None => Throw TypeError
  end.

(** The inner loop of [toRectangleArray]:
    [for (let j = 0; j < item.count; j++) result.push({...})]. *)
Definition push_item (item : ItemSetting) (result : list Rectangle)
  : list Rectangle :=
  fold_left
    (fun result (_ : Z) =>
       result ++ [mkRectangle (cols (size item)) (rows (size item))])
    (for_indices (count item)) result.

(** [toRectangleArray]: the outer loop runs over
    [i = 0 .. settings.value.length - 1]; [settings.value[i]] is read at
    each step (the index is always in range, so the read never yields
    [undefined]). *)
Definition toRectangleArray (s : settings) : list Rectangle :=
  fold_left
    (fun result (i : Z) =>
       match js_get s i with
       | Some item => push_item item result
       | None => result
       end)
    (for_indices (Z.of_nat (length s))) [].

(** A call of one of the two setters, as issued by the selection UI. *)
Inductive call : Set :=
  | SetCount (index : Z) (n : Z)
  | SetSize (index : Z) (sz : ItemSize).

(** The store after a call: a call that throws leaves the store as it
    was (the exception goes to the caller, the store lives on). *)
Definition after_call (s : settings) (c : call) : settings :=
  match (match c with
         | SetCount index n => setCount s index n
         | SetSize index sz => setSize s index sz
         end) with
  | Normal s' => s'
  | Throw _ => s
  end.

Definition after_calls (cs : list call) (s : settings) : settings :=
  fold_left after_call cs s.

(** Counts are non-negative integers in the data model
    ([ItemSetting.count]); the store itself does not check. *)
Definition count_ok (c : call) : Prop :=
  match c with
  | SetCount _ n => 0 <= n
  | SetSize _ _ => True
  end.

Definition counts_nonneg (s : settings) : Prop :=
  Forall (fun item => 0 <= count item) s.

(** The sum of the counts of a store. *)
Definition sum_counts (s : settings) : Z :=
  fold_right (fun item acc => count item + acc) 0 s.

(** The rectangle a setting stands for. *)
Definition rectangle_of (item : ItemSetting) : Rectangle :=
  mkRectangle (cols (size item)) (rows (size item)).

(** [count] copies of the rectangle of a setting (none for a count
    below 1). *)
Definition copies (item : ItemSetting) : list Rectangle :=
  replicate (Z.to_nat (count item)) (rectangle_of item).

End ItemStore.

(** ** The grid mask store ([useGridStore]) *)

Module GridStore.

(** A slot of a row of the mask: [Some b] holds the boolean [b], [None]
    is a hole (it reads as [undefined]).  Holes only arise when a write
    lands past the end of a row. *)
Abbreviation cell := (option bool).

Record state : Set := mkState { _size : ItemSize; mask : list (list cell) }.

(** Truthiness of what [row[j]] reads: [undefined] is falsy. *)
Definition truthy (v : option cell) : bool :=
  match v with
  | Some (Some b) => b
  | _ => false
  end.

(** [row[x] = v] for [0 <= x]: in range the slot is overwritten, past
    the end the row grows and the slots in between are holes. *)
Definition js_set (row : list cell) (x : Z) (v : bool) : list cell :=
  let k := Z.to_nat x in
  if (k <? length row)%nat
  then <[k := Some v]> row
  else row ++ replicate (k - length row)%nat None ++ [Some v].

(** [Array(n).fill(v)]: a [RangeError] for a negative length.  (The
    upper limit of array lengths is not modelled, lists being
    unbounded.) *)
Definition js_Array_fill (n : Z) (v : bool) : completion (list cell) :=
  if n <? 0 then Throw RangeError
  else Normal (replicate (Z.to_nat n) (Some v)).

(** [Array.from({ length: rows }, () => Array(cols).fill(false))]: the
    length is clamped to 0 from below, and the callback builds a fresh
    row for each index, so rows are never shared. *)
Definition fresh_mask (sz : ItemSize) : completion (list (list cell)) :=
  if rows sz <=? 0 then Normal []
  else match js_Array_fill (cols sz) false with
       | Normal row => Normal (replicate (Z.to_nat (rows sz)) row)
       | Throw e => Throw e
       end.

(** The store as [defineStore] sets it up: [new ItemSize(5, 9)] and the
    all-false mask built from it. *)
Definition initial : state :=
  mkState (mkItemSize 5 9) (replicate 5 (replicate 9 (Some false))).

(** The computed [size]. *)
Definition size (s : state) : ItemSize :=
  mkItemSize (rows (_size s)) (cols (_size s)).

(** The guard of [flipMask]. *)
Definition out_of_range (s : state) (x y : Z) : bool :=
  (y <? 0) || (y >=? rows (_size s)) || (x <? 0) || (x >=? cols (_size s)).

Definition flipMask (s : state) (x y : Z) : completion state :=
  if out_of_range s x y
  then Normal s
  else
    match js_get (mask s) y with
    | None => Throw TypeError
    | Some row =>
        let v := negb (truthy (js_get row x)) in
        Normal (mkState (_size s) (<[Z.to_nat y := js_set row x v]> (mask s)))
    end.

Definition reset (s : state) : completion state :=
  match fresh_mask (_size s) with
  | Normal m => Normal (mkState (_size s) m)
  | Throw e => Throw e
  end.

(** What a loop body does to the control flow of the enclosing
    function. *)
Inductive control : Set :=
  | Next
  | Return (b : bool)
  | Raise (e : js_error).

(** A [for] loop over the given indices whose body may return from the
    function or throw. *)
Fixpoint for_each (indices : list Z) (body : Z -> control) : control :=
  match indices with
  | [] => Next
  | i :: rest =>
      match body i with
      | Next => for_each rest body
      | c => c
      end
  end.

(** The body of the inner loop of [isAllMasked]:
    [if (mask.value[i][j]) return false]. *)
Definition check_cell (s : state) (i j : Z) : control :=
  match js_get (mask s) i with
  | None => Raise TypeError
  | Some row => if truthy (js_get row j) then Return false else Next
  end.

Definition isAllMasked (s : state) : completion bool :=
  match for_each (for_indices (rows (_size s)))
          (fun i => for_each (for_indices (cols (_size s))) (check_cell s i))
  with
  | Next => Normal true
  | Return b => Normal b
  | Raise e => Throw e
  end.

(** The invariant of the data model: the mask has exactly [rows] rows,
    each of [cols] booleans. *)
Definition row_ok (n : Z) (row : list cell) : Prop :=
  Z.of_nat (length row) = n /\ Forall (fun c => c <> None) row.

Definition shape_ok (s : state) : Prop :=
  Z.of_nat (length (mask s)) = rows (_size s)
  /\ Forall (row_ok (cols (_size s))) (mask s).

(** The content of cell [mask[y][x]], [None] when there is no such
    boolean. *)
Definition cell_at (s : state) (x y : Z) : option bool :=
  match js_get (mask s) y with
  | Some row => match js_get row x with Some c => c | None => None end
  | None => None
  end.

Definition in_range (s : state) (x y : Z) : Prop :=
  0 <= x < cols (_size s) /\ 0 <= y < rows (_size s).

(** Every cell of the mask holds [false]. *)
Definition all_false (s : state) : Prop :=
  Forall (Forall (fun c => c = Some false)) (mask s).

End GridStore.

(** ** [Grid], [Color], [InferenceResult], [DisplayMode] *)

Module Grid.
Record t (T : Type) : Type := mk { rows : Z; cols : Z; data : list (list T) }.
Arguments mk {T} rows cols data.
Arguments rows {T} _.
Arguments cols {T} _.
Arguments data {T} _.
End Grid.

(** [[r, g, b]]. *)
Definition Color : Set := (Z * Z * Z)%type.

(** [[number, Color]]: a value and the colour the service chose for it. *)
Definition Datum : Set := (Q * Color)%type.

Record InferenceResult : Type := mkInferenceResult {
  probabilities : Grid.t Datum;
  entropy : Grid.t Datum
}.

Inductive DisplayMode : Set := Entropy | Probability.

(** ** The display mode store ([useDisplayModeStore]) *)

Module DisplayModeStore.

Record state : Set := mkState { _mode : DisplayMode }.

Definition initial : state := mkState Entropy.

(** The computed [mode]. *)
Definition mode (s : state) : DisplayMode := _mode s.

Definition setMode (s : state) (newMode : DisplayMode) : state :=
  mkState newMode.

End DisplayModeStore.

(** What an expression of type [T | null] can evaluate to at run time. *)
Inductive js_value (T : Type) : Type :=
  | Value (v : T)
  | Null
  | Undefined.
Arguments Value {T} v.
Arguments Null {T}.
Arguments Undefined {T}.

(** ** The result mapper of [PanelGridContainer.vue] *)

Module PanelGridContainer.

(** [Math.floor(index / cols)]: the quotient is taken in the rationals
    and then rounded down.  (For integers below 2^53 the rounding of the
    floating-point quotient never crosses an integer, so the floor is the
    same.  [cols] is not 0: dividing by zero gives [Infinity] or [NaN],
    which the model does not have.) *)
Definition Math_floor_div (a b : Z) : Z :=
  Qfloor (inject_Z a / inject_Z b).

(** [indexToRowCol]: [%] is the remainder that takes the sign of the
    dividend. *)
Definition indexToRowCol (g : GridStore.state) (index : Z) : Z * Z :=
  let row := Math_floor_div index (cols (GridStore.size g)) in
  let col := Z.rem index (cols (GridStore.size g)) in
  (row, col).

(** [grid.data[row][col]]: a missing row is [undefined], and indexing
    [undefined] throws a [TypeError]; a missing column of an existing
    row reads as [undefined]. *)
Definition data_at (grid : Grid.t Datum) (row col : Z)
  : completion (js_value Datum) :=
  match js_get (Grid.data grid) row with
  | None => Throw TypeError
  | Some r =>
      match js_get r col with
      | Some d => Normal (Value d)
      | None => Normal Undefined
      end
  end.

Definition getProbability (g : GridStore.state)
  (inferenceResult : option InferenceResult) (i : Z)
  : completion (js_value Datum) :=
  let '(row, col) := indexToRowCol g i in
  match inferenceResult with
  | Some r => data_at (probabilities r) row col
  | None => Normal Null
  end.

Definition getEntropy (g : GridStore.state)
  (inferenceResult : option InferenceResult) (i : Z)
  : completion (js_value Datum) :=
  let '(row, col) := indexToRowCol g i in
  match inferenceResult with
  | Some r => data_at (entropy r) row col
  | None => Normal Null
  end.

(** [handleClick]: the clicked panel's cell is flipped. *)
Definition handleClick (g : GridStore.state) (i : Z)
  : completion GridStore.state :=
  let '(row, col) := indexToRowCol g i in
  GridStore.flipMask g col row.

(** The computed [isOpen]: [gridStore.mask.flat()].  [flat] appends the
    rows one after the other and skips their holes. *)
Definition isOpen (g : GridStore.state) : list bool :=
  concat (map (omap id) (GridStore.mask g)).

(** A grid has the dimensions the mask store declares: as many rows as
    [rows], each of [cols] entries. *)
Definition matches (g : GridStore.state) (grid : Grid.t Datum) : Prop :=
  Z.of_nat (length (Grid.data grid)) = rows (GridStore.size g)
  /\ Forall (fun r => Z.of_nat (length r) = cols (GridStore.size g))
       (Grid.data grid).

(** The statement that a lookup on a grid of the wrong dimensions
    fails with a [MappingError], for the flat indices of the mask. *)
Definition mismatch_raises_MappingError : Prop :=
  forall (g : GridStore.state) (r : InferenceResult) (i : Z),
    GridStore.shape_ok g ->
    ~ matches g (probabilities r) \/ ~ matches g (entropy r) ->
    0 <= i < rows (GridStore.size g) * cols (GridStore.size g) ->
    getProbability g (Some r) i = Throw MappingError
    /\ getEntropy g (Some r) i = Throw MappingError.

(** Two responses for the 5 x 9 mask whose grids have the wrong
    dimensions: rows of 8 entries, and 4 rows only. *)
Definition sample : Datum := (1 # 2, (255, 128, 0)).

Definition narrow : Grid.t Datum :=
  Grid.mk 5 8 (replicate 5 (replicate 8 sample)).

Definition short : Grid.t Datum :=
  Grid.mk 4 9 (replicate 4 (replicate 9 sample)).

Definition narrow_result : InferenceResult := mkInferenceResult narrow narrow.

Definition short_result : InferenceResult := mkInferenceResult short short.

End PanelGridContainer.

(** ** The panel of [GridPanelItem.vue] *)

Module GridPanelItem.

(** The props [entropy] and [probablity] are [[number, Color] | null]
    with default [null] (an [undefined] prop takes the default). *)
Definition panelData (mode : DisplayMode)
  (probablity entropy : option Datum) : option Datum :=
  match mode with
  | Entropy => entropy
  | Probability => probablity
  end.

(** [Math.round]: the nearest integer, a tie going up. *)
Definition Math_round (q : Q) : Z := Qfloor (q + (1 # 2)).

(** [Math.round((rgb[0] * 299 + rgb[1] * 587 + rgb[2] * 114) / 1000)].
    (The quotient of an integer by 1000 is either a half-integer, which
    is a double, or at least 1/1000 away from one, so the rounding of the
    floating-point quotient does not change what [Math.round] gives.) *)
Definition brightness (rgb : Color) : Z :=
  let '(r, g, b) := rgb in
  Math_round (inject_Z (r * 299 + g * 587 + b * 114) / inject_Z 1000).

Definition textColor (panelData : option Datum) : string :=
  match panelData with
  | Some (_, rgb) => if 125 <? brightness rgb then "black" else "white"
  | None => "black"
  end.

(** The template literal [`rgb(${r}, ${g}, ${b})`]; an integer prints
    in decimal (below 10^21 in absolute value; from there on JavaScript
    prints an exponent, which is not modelled). *)
Definition backgroundColor (panelData : option Datum) : string :=
  match panelData with
  | Some (_, (r, g, b)) =>
      "rgb(" +:+ pretty r +:+ ", " +:+ pretty g +:+ ", " +:+ pretty b +:+ ")"
  | None => ""
  end.

(** The string a number formats to.  [Literal s] is the string [s].
    [Exponential negative x] is the string that [Number::toString]
    gives for [x >= 10^21], after a ["-"] when [negative]: it is in
    exponential notation (["1e+21"]), its digits are the shortest that
    identify the double and are not modelled. *)
Inductive text : Set :=
  | Literal (s : string)
  | Exponential (negative : bool) (x : Q).

(** A string of [n] zeros. *)
Fixpoint zeros (n : nat) : string :=
  match n with
  | O => ""
  | S n' => String "0"%char (zeros n')
  end.

(** The first [k - 2] and the last 2 characters of [m], joined by a
    point ([k] is the length of [m], at least 3). *)
Definition insert_point (m : string) : string :=
  let k := String.length m in
  String.substring 0 (k - 2) m +:+ "." +:+ String.substring (k - 2) 2 m.

(** [Number.prototype.toFixed(2)] on a finite number, step by step as
    the standard gives it: the sign is split off; from 10^21 on the
    result is that of [Number::toString]; otherwise [n] is the integer
    nearest to [100 x] (the larger one on a tie), its decimal digits are
    padded with zeros on the left to 3 characters and the point goes
    before the last two. *)
Definition toFixed_2 (x : Q) : text :=
  let negative := negb (Qle_bool 0 x) in
  let x := if negative then Qopp x else x in
  if Qle_bool (inject_Z (10 ^ 21)) x then Exponential negative x
  else
    let n := Qfloor (x * inject_Z 100 + (1 # 2)) in
    let m := pretty n in
    let k := String.length m in
    let m := if (k <=? 2)%nat
             then zeros (3 - k) +:+ m
             else m in
    Literal ((if negative then "-" else "") +:+ insert_point m).

Definition label (panelData : option Datum) : text :=
  match panelData with
  | Some (value, _) => toFixed_2 value
  | None => Literal ""
  end.

(** One of the characters ["0"] to ["9"]. *)
Definition is_digit (c : ascii) : Prop :=
  (48 <= nat_of_ascii c <= 57)%nat.

Fixpoint all_digits (s : string) : Prop :=
  match s with
  | EmptyString => True
  | String c s' => is_digit c /\ all_digits s'
  end.

(** The decimal digit of [d], for [0 <= d < 10]. *)
Definition digit (d : Z) : ascii := pretty_N_char (Z.to_N d).

(** A string with exactly two digits after a decimal point: an optional
    minus sign, one digit or more, the point, two digits, and nothing
    else. *)
Definition two_decimals (t : text) : Prop :=
  exists (sign whole : string) (d1 d2 : ascii),
    (sign = "" \/ sign = "-")
    /\ whole <> "" /\ all_digits whole /\ is_digit d1 /\ is_digit d2
    /\ t = Literal (sign +:+ whole +:+ "." +:+ String d1 (String d2 "")).

End GridPanelItem.

(** ** The request orchestrator (the page component) *)

Module Page.

(** The two refs of the page: [estimates], the result on display
    ([null] when there is none), and [isShowWaitIndicator], documented as
    true when the inference result is being requested from the
    server. *)
Record view : Type := mkView {
  estimates : option InferenceResult;
  isShowWaitIndicator : bool
}.

(** The page together with the stores it uses. *)
Record world : Type := mkWorld {
  page : view;
  gridStore : GridStore.state;
  itemStore : ItemStore.settings
}.

(** The body of the POST request. *)
Record param : Type := mkParam {
  mask : Grid.t GridStore.cell;
  rectangles : list Rectangle
}.

(** How the promise of [$fetch] settles. *)
Inductive fetch_outcome : Type :=
  | Resolved (data : InferenceResult)
  | Rejected.

(** [requestInference] up to its [await]: the flag is raised and the
    request is assembled and sent. *)
Definition requestInference_call (w : world) : world * param :=
  let v := mkView (estimates (page w)) true in
  let grid := Grid.mk (rows (GridStore.size (gridStore w)))
                      (cols (GridStore.size (gridStore w)))
                      (GridStore.mask (gridStore w)) in
  (mkWorld v (gridStore w) (itemStore w),
   mkParam grid (ItemStore.toRectangleArray (itemStore w))).

(** [requestInference] from its [await] on.  When the promise is
    fulfilled the two assignments run.  When it is rejected the [await]
    throws; there is no [try], so the rest of the body is skipped and
    the promise of [requestInference] is rejected in turn. *)
Definition requestInference_resume (o : fetch_outcome) (v : view)
  : view * completion unit :=
  match o with
  | Resolved data => (mkView (Some data) false, Normal tt)
  | Rejected => (v, Throw FetchError)
  end.

(** The callback given to [$subscribe]. *)
Definition subscription (g : GridStore.state) (v : view) : view :=
  match GridStore.isAllMasked g with
  | Normal true => mkView None (isShowWaitIndicator v)
  | Normal false => v
  | Throw _ => v
  end.

(** A write to the grid store: the store takes its new state and the
    subscription callback runs on it, before any other event is
    handled. *)
Definition notify (g' : GridStore.state) (w : world) : world :=
  mkWorld (subscription g' (page w)) g' (itemStore w).

(** What can happen to the page, one event at a time. *)
Inductive event : Type :=
  | Estimate
  | Settle (o : fetch_outcome)
  | Click (i : Z)
  | ResetClick
  | Inventory (c : ItemStore.call).

(** [Estimate] is the estimate action up to the [await] of
    [requestInference], [Settle o] the rest of it once the request has
    settled.  [Click i] is [handleClick(i)]; a [flipMask] that returns at
    its guard or throws writes nothing, so nobody is notified.
    [ResetClick] is a call of [gridStore.reset()], the other writer of
    the grid store.  [Inventory c] is a call of a setter of the item
    store. *)
Definition step (w : world) (e : event) : world :=
  match e with
  | Estimate => fst (requestInference_call w)
  | Settle o =>
      mkWorld (fst (requestInference_resume o (page w)))
              (gridStore w) (itemStore w)
  | Click i =>
      let '(row, col) := PanelGridContainer.indexToRowCol (gridStore w) i in
      if GridStore.out_of_range (gridStore w) col row then w
      else match PanelGridContainer.handleClick (gridStore w) i with
           | Normal g' => notify g' w
           | Throw _ => w
           end
  | ResetClick =>
      match GridStore.reset (gridStore w) with
      | Normal g' => notify g' w
      | Throw _ => w
      end
  | Inventory c =>
      mkWorld (page w) (gridStore w) (ItemStore.after_call (itemStore w) c)
  end.

Definition run (w : world) (es : list event) : world :=
  fold_left step es w.

(** The page as it is mounted. *)
Definition initial : world :=
  mkWorld (mkView None false) GridStore.initial ItemStore.initial.

(** The event writes to the grid store. *)
Definition writes_grid (w : world) (e : event) : bool :=
  match e with
  | Click i =>
      let '(row, col) := PanelGridContainer.indexToRowCol (gridStore w) i in
      negb (GridStore.out_of_range (gridStore w) col row)
      && match PanelGridContainer.handleClick (gridStore w) i with
         | Normal _ => true
         | Throw _ => false
         end
  | ResetClick =>
      match GridStore.reset (gridStore w) with
      | Normal _ => true
      | Throw _ => false
      end
  | _ => false
  end.

(** A page in the Waiting state that shows a result while cell (0, 0)
    of the 5 x 9 mask is hidden. *)
Definition showing : world :=
  mkWorld
    (mkView (Some (mkInferenceResult
                     (Grid.mk 5 9 (replicate 5 (replicate 9 PanelGridContainer.sample)))
                     (Grid.mk 5 9 (replicate 5 (replicate 9 PanelGridContainer.sample)))))
            true)
    (GridStore.mkState (mkItemSize 5 9)
       (<[0%nat := <[0%nat := Some true]> (replicate 9 (Some false))]>
          (replicate 5 (replicate 9 (Some false)))))
    ItemStore.initial.

End Page.

(** ** [ItemSize.toLabel] *)

(** The template literal [`${this.rows} × ${this.cols}`]; an integer
    prints in decimal (below 10^21 in absolute value; from there on
    JavaScript prints an exponent, which is not modelled), and the string
    is taken as its UTF-8 bytes. *)
Definition toLabel (sz : ItemSize) : string :=
  pretty (rows sz) +:+ " × " +:+ pretty (cols sz).

(** The integers that print in decimal. *)
Definition prints_in_decimal (z : Z) : Prop := Z.abs z < 10 ^ 21.

(** The character [c] occurs in [s]. *)
Fixpoint occurs (c : ascii) (s : string) : Prop :=
  match s with
  | EmptyString => False
  | String x s' => x = c \/ occurs c s'
  end.

(** ** The display mode button *)

Module DisplayModeButton.

(** [handleDisplayModeChange]: the store is set to the other mode. *)
Definition handleDisplayModeChange (s : DisplayModeStore.state)
  : DisplayModeStore.state :=
  DisplayModeStore.setMode s
    (match DisplayModeStore.mode s with
     | Probability => Entropy
     | Entropy => Probability
     end).

(** The text of the button. *)
Definition text (s : DisplayModeStore.state) : string :=
  match DisplayModeStore.mode s with
  | Probability => "Probability"
  | Entropy => "Entropy"
  end.

End DisplayModeButton.

(** ** The item selectors ([HiddenItemSetting.vue]) *)

(** Which of the two [select] elements changed. *)
Inductive select_type : Set := itemSize | numItems.

(** A change of a selector of the component with prop [settingIndex]:
    [value] is [Number(event.target.value)], the integer value of the
    chosen option. *)
Record change : Set := mkChange {
  settingIndex : Z;
  value : Z;
  type : select_type
}.

(** [Array.from({ length: 7 }).map((_, i) => i)]. *)
Definition numItemOptions : list Z := seqZ 0 7.

Module HiddenItemSetting.

Definition presets : list ItemSize :=
  [ mkItemSize 1 2; mkItemSize 1 3; mkItemSize 1 4; mkItemSize 2 2;
    mkItemSize 2 3; mkItemSize 2 4; mkItemSize 3 3 ].

(** [handleSelectChange]: [size] is [presets[value]] for the size
    selector and [count] is [value] for the count selector, each
    [undefined] otherwise; a setter is called when its argument is not
    [null] or [undefined]. *)
Definition handleSelectChange (s : ItemStore.settings) (c : change)
  : completion ItemStore.settings :=
  let size := match type c with
              | itemSize => js_get presets (value c)
              | numItems => None
              end in
  let count := match type c with
               | numItems => Some (value c)
               | itemSize => None
               end in
  match (match size with
         | Some sz => ItemStore.setSize s (settingIndex c) sz
         | None => Normal s
         end) with
  | Throw e => Throw e
  | Normal s1 =>
      match count with
      | Some n => ItemStore.setCount s1 (settingIndex c) n
      | None => Normal s1
      end
  end.

(** The store after a change: a handler that throws leaves the store as
    it was. *)
Definition after_change (s : ItemStore.settings) (c : change)
  : ItemStore.settings :=
  match handleSelectChange s c with
  | Normal s' => s'
  | Throw _ => s
  end.

Definition after_changes (cs : list change) (s : ItemStore.settings)
  : ItemStore.settings :=
  fold_left after_change cs s.

(** A change the page can produce: one of its four components
    ([settingIndex] 0 to 3) with an option of the selector. *)
Definition offered (c : change) : Prop :=
  0 <= settingIndex c < 4
  /\ match type c with
     | itemSize => 0 <= value c < Z.of_nat (length presets)
     | numItems => value c ∈ numItemOptions
     end.

End HiddenItemSetting.

(** The second selector component of the same file, with the upright
    presets; its handler tests [if (size)] and [if (count)]. *)
Module HiddenItemSetting2.

Definition presets : list ItemSize :=
  [ mkItemSize 2 1; mkItemSize 3 1; mkItemSize 3 2; mkItemSize 3 3 ].

(** [handleSelectChange]: a setter is called when its argument is
    truthy; an object is, a number is unless it is 0. *)
Definition handleSelectChange (s : ItemStore.settings) (c : change)
  : completion ItemStore.settings :=
  let size := match type c with
              | itemSize => js_get presets (value c)
              | numItems => None
              end in
  let count := match type c with
               | numItems => Some (value c)
               | itemSize => None
               end in
  match (match size with
         | Some sz => ItemStore.setSize s (settingIndex c) sz
         | None => Normal s
         end) with
  | Throw e => Throw e
  | Normal s1 =>
      match count with
      | Some n => if n =? 0 then Normal s1
                  else ItemStore.setCount s1 (settingIndex c) n
      | None => Normal s1
      end
  end.

Definition after_change (s : ItemStore.settings) (c : change)
  : ItemStore.settings :=
  match handleSelectChange s c with
  | Normal s' => s'
  | Throw _ => s
  end.

Definition after_changes (cs : list change) (s : ItemStore.settings)
  : ItemStore.settings :=
  fold_left after_change cs s.

End HiddenItemSetting2.

(** * Properties *)

(** ** Array reads *)

Lemma js_get_nat {A : Type} (arr : list A) (i : nat) :
  js_get arr (Z.of_nat i) = arr !! i.
Proof.
  unfold js_get. destruct (Z.ltb_spec (Z.of_nat i) 0) as [H|H]; [lia|].
  by rewrite Nat2Z.id.
Qed.

Lemma js_get_Some {A : Type} (arr : list A) (i : Z) (a : A) :
  js_get arr i = Some a <-> 0 <= i /\ arr !! Z.to_nat i = Some a.
Proof.
  unfold js_get. destruct (Z.ltb_spec i 0); split.
  - done.
  - intros [? _]. lia.
  - intros E. split; [lia | done].
  - by intros [_ E].
Qed.

Lemma js_get_in_range {A : Type} (arr : list A) (i : Z) :
  0 <= i < Z.of_nat (length arr) -> exists a, js_get arr i = Some a.
Proof.
  intros Hi. destruct (lookup_lt_is_Some_2 arr (Z.to_nat i)) as [a Ha]; [lia|].
  exists a. apply js_get_Some. split; [lia | done].
Qed.

Lemma js_get_outside {A : Type} (arr : list A) (i : Z) :
  i < 0 \/ Z.of_nat (length arr) <= i -> js_get arr i = None.
Proof.
  intros Hi. unfold js_get. destruct (Z.ltb_spec i 0); [done|].
  apply lookup_ge_None. lia.
Qed.

(** A loop over the indices of an array that reads the array at each
    index is a loop over its elements. *)
Lemma fold_indices_elements {A B : Type} (f : option A -> B -> B)
    (pre suf : list A) (acc : B) :
  fold_left (fun acc i => f (js_get (pre ++ suf) i) acc)
    (seqZ (Z.of_nat (length pre)) (Z.of_nat (length suf))) acc
  = fold_left (fun acc a => f (Some a) acc) suf acc.
Proof.
  revert pre acc. induction suf as [|a suf IH]; intros pre acc.
  - by rewrite seqZ_nil.
  - assert (seqZ (Z.of_nat (length pre)) (Z.of_nat (length (a :: suf)))
            = Z.of_nat (length pre)
              :: seqZ (Z.of_nat (length (pre ++ [a]))) (Z.of_nat (length suf)))
      as ->.
    { rewrite seqZ_cons by (simpl; lia). f_equal. f_equal.
      - rewrite length_app. simpl. lia.
      - simpl. lia. }
    simpl fold_left.
    rewrite js_get_nat, list_lookup_middle by done.
    specialize (IH (pre ++ [a]) (f (Some a) acc)).
    rewrite <- app_assoc in IH. exact IH.
Qed.

(** ** The item inventory store *)

Section ItemStoreFacts.
Import ItemStore.

Lemma push_item_copies item result :
  push_item item result = result ++ copies item.
Proof.
  unfold push_item, copies, for_indices, rectangle_of.
  rewrite <- (length_seqZ 0 (count item)).
  generalize (seqZ 0 (count item)) as l. intros l. revert result.
  induction l as [|i l IH]; intros result; simpl.
  - by rewrite app_nil_r.
  - rewrite IH, <- app_assoc. done.
Qed.

Lemma toRectangleArray_concat (s : settings) :
  toRectangleArray s = concat (map copies s).
Proof.
  unfold toRectangleArray, for_indices.
  pose proof (fold_indices_elements
    (fun o result => match o with
                     | Some item => push_item item result
                     | None => result
                     end) [] s []) as H.
  refine (eq_trans H _). clear H.
  cut (forall acc, fold_left (fun acc a => push_item a acc) s acc
                   = acc ++ concat (map copies s)).
  { intros C. by rewrite C. }
  induction s as [|a s IH]; intros acc; simpl.
  - by rewrite app_nil_r.
  - rewrite IH, push_item_copies, <- app_assoc. done.
Qed.

Lemma length_copies item :
  0 <= count item -> Z.of_nat (length (copies item)) = count item.
Proof. intros H. unfold copies. rewrite length_replicate. lia. Qed.

Lemma length_concat_copies (s : settings) :
  counts_nonneg s ->
  Z.of_nat (length (concat (map copies s))) = sum_counts s.
Proof.
  induction 1 as [|a s Ha Hs IH]; simpl; [done|].
  rewrite length_app, Nat2Z.inj_add, IH, length_copies by done. done.
Qed.

Lemma counts_nonneg_take (s : settings) (i : nat) :
  counts_nonneg s -> counts_nonneg (take i s).
Proof. apply Forall_take. Qed.

Lemma counts_nonneg_initial : counts_nonneg initial.
Proof. unfold counts_nonneg, initial. repeat constructor; simpl; lia. Qed.

Lemma after_call_counts_nonneg s c :
  count_ok c -> counts_nonneg s -> counts_nonneg (after_call s c).
Proof.
  intros Hc Hs. unfold after_call.
  destruct c as [index n|index sz]; unfold setCount, setSize;
    destruct (js_get s index) as [item|] eqn:E; try done;
    apply js_get_Some in E as [_ E];
    apply Forall_insert; try done; simpl; try done.
  by eapply (Forall_lookup_1 _ _ _ _ Hs E).
Qed.

Lemma after_calls_counts_nonneg cs s :
  Forall count_ok cs -> counts_nonneg s -> counts_nonneg (after_calls cs s).
Proof.
  intros Hcs. revert s. induction Hcs as [|c cs Hc Hcs IH]; intros s Hs.
  - done.
  - simpl. apply IH. by apply after_call_counts_nonneg.
Qed.

(** Where the copies of setting [i] sit in the output. *)
Lemma concat_copies_lookup (s : settings) (i : nat) item (j : Z) :
  counts_nonneg s ->
  s !! i = Some item ->
  0 <= j < count item ->
  concat (map copies s) !! Z.to_nat (sum_counts (take i s) + j)
  = Some (rectangle_of item).
Proof.
  intros Hs Hi Hj.
  pose proof (length_concat_copies (take i s) (counts_nonneg_take s i Hs)) as Hlen.
  remember (sum_counts (take i s)) as off eqn:Eoff.
  remember (concat (map copies (take i s))) as before eqn:Ebefore.
  rewrite <- (take_drop_middle s i item Hi).
  rewrite map_app, concat_app, <- Ebefore. simpl.
  rewrite lookup_app_r by lia.
  replace (Z.to_nat (off + j) - length before)%nat
    with (Z.to_nat j) by lia.
  rewrite lookup_app_l by (unfold copies; rewrite length_replicate; lia).
  unfold copies. apply lookup_replicate_2. lia.
Qed.

(** Every element of the output is a copy of some setting, at the
    place of that setting. *)
Lemma concat_copies_origin (s : settings) (k : nat) (r : Rectangle) :
  counts_nonneg s ->
  concat (map copies s) !! k = Some r ->
  exists (i : nat) item (j : Z),
    s !! i = Some item /\ 0 <= j < count item
    /\ Z.of_nat k = sum_counts (take i s) + j /\ r = rectangle_of item.
Proof.
  intros Hs. revert k. induction Hs as [|a s Ha Hs IH]; intros k Hk.
  - done.
  - simpl in Hk. destruct (decide (k < length (copies a))%nat) as [Hlt|Hge].
    + rewrite lookup_app_l in Hk by done.
      apply lookup_replicate in Hk as [-> Hk].
      exists 0%nat, a, (Z.of_nat k). simpl. repeat split; try done; lia.
    + rewrite lookup_app_r in Hk by lia.
      destruct (IH _ Hk) as (i & item & j & Hi & Hj & Hpos & ->).
      exists (S i), item, j. simpl. repeat split; try done; try lia.
      pose proof (length_copies a Ha). lia.
Qed.

(** C4. After any sequence of [setCount] / [setSize] calls on the store
    (counts being non-negative integers, as the data model has them),
    [toRectangleArray] returns a sequence whose length is the sum of all
    counts; the copies of setting [i] sit, in repetition order, right
    after those of the settings before it, each equal to
    [{ width: size.cols, height: size.rows }] of that setting; every
    element of the output arises this way; and the output is empty when
    all counts are zero. *)
Theorem toRectangleArray_after_calls (cs : list call) :
  Forall count_ok cs ->
  let s := after_calls cs initial in
  let out := toRectangleArray s in
  Z.of_nat (length out) = sum_counts s
  /\ (forall (i : nat) item (j : Z),
        s !! i = Some item -> 0 <= j < count item ->
        out !! Z.to_nat (sum_counts (take i s) + j)
        = Some (mkRectangle (cols (size item)) (rows (size item))))
  /\ (forall (k : nat) (r : Rectangle),
        out !! k = Some r ->
        exists (i : nat) item (j : Z),
          s !! i = Some item /\ 0 <= j < count item
          /\ Z.of_nat k = sum_counts (take i s) + j
          /\ r = mkRectangle (cols (size item)) (rows (size item)))
  /\ (Forall (fun item => count item = 0) s -> out = []).
Proof.
  intros Hcs s out.
  assert (Hs : counts_nonneg s)
    by (apply after_calls_counts_nonneg; [done | apply counts_nonneg_initial]).
  subst out. rewrite toRectangleArray_concat.
  split; [by apply length_concat_copies|].
  split; [intros i item j; by apply concat_copies_lookup|].
  split; [intros k r; by apply concat_copies_origin|].
  intros Hzero. clear Hs. induction Hzero as [|a l Ha Hl IH]; [done|].
  simpl. unfold copies at 1. rewrite Ha. simpl. exact IH.
Qed.

Lemma toRectangleArray_after_calls_witness :
  let cs := [SetCount 0 2; SetSize 2 (mkItemSize 3 2); SetCount 2 1;
             SetCount 7 4] in
  Forall count_ok cs
  /\ toRectangleArray (after_calls cs initial)
     = [mkRectangle 2 1; mkRectangle 2 1; mkRectangle 2 3]
  /\ Z.of_nat (length (toRectangleArray (after_calls cs initial)))
     = sum_counts (after_calls cs initial).
Proof.
  intros cs.
  assert (H : Forall count_ok cs) by (repeat constructor; simpl; lia).
  split; [exact H|]. split; [reflexivity|].
  exact (proj1 (toRectangleArray_after_calls cs H)).
Defined.

(** Without the assumption on the sign: a setting whose count is below
    1 contributes nothing. *)
Lemma toRectangleArray_length (s : settings) :
  length (toRectangleArray s)
  = fold_right (fun item acc => (Z.to_nat (count item) + acc)%nat) 0%nat s.
Proof.
  rewrite toRectangleArray_concat.
  induction s as [|a s IH]; simpl; [done|].
  rewrite length_app, IH. unfold copies. by rewrite length_replicate.
Qed.

End ItemStoreFacts.

(** ** The grid mask store *)

Section GridStoreFacts.
Import GridStore.

Lemma shape_ok_initial : shape_ok initial.
Proof.
  split; [done|]. unfold initial, mask. apply Forall_replicate.
  split; [done|]. by apply Forall_replicate.
Qed.

Lemma out_of_range_false (s : state) (x y : Z) :
  out_of_range s x y = false <-> in_range s x y.
Proof. unfold out_of_range, in_range. lia. Qed.

Lemma out_of_range_true (s : state) (x y : Z) :
  out_of_range s x y = true <-> ~ in_range s x y.
Proof. unfold out_of_range, in_range. lia. Qed.

(** In a well-shaped store a cell in range holds a boolean. *)
Lemma shape_ok_cell (s : state) (x y : Z) :
  shape_ok s -> in_range s x y ->
  exists row b,
    mask s !! Z.to_nat y = Some row
    /\ row_ok (cols (_size s)) row
    /\ row !! Z.to_nat x = Some (Some b).
Proof.
  intros [Hlen Hrows] [Hx Hy].
  destruct (lookup_lt_is_Some_2 (mask s) (Z.to_nat y)) as [row Hrow]; [lia|].
  pose proof (Forall_lookup_1 _ _ _ _ Hrows Hrow) as Hok.
  destruct Hok as [Hrl Hcells].
  destruct (lookup_lt_is_Some_2 row (Z.to_nat x)) as [c Hc]; [lia|].
  pose proof (Forall_lookup_1 _ _ _ _ Hcells Hc) as Hne.
  destruct c as [b|]; [|done].
  exists row, b. repeat split; done.
Qed.

(** What an in-range [flipMask] does to a well-shaped store. *)
Lemma flipMask_in_range (s : state) (x y : Z) :
  shape_ok s -> in_range s x y ->
  exists row b,
    mask s !! Z.to_nat y = Some row
    /\ row !! Z.to_nat x = Some (Some b)
    /\ flipMask s x y
       = Normal (mkState (_size s)
           (<[Z.to_nat y := <[Z.to_nat x := Some (negb b)]> row]> (mask s))).
Proof.
  intros Hs Hr.
  destruct (shape_ok_cell s x y Hs Hr) as (row & b & Hrow & Hok & Hc).
  exists row, b. split; [done|]. split; [done|].
  unfold flipMask. apply out_of_range_false in Hr as Hg. rewrite Hg.
  destruct Hr as [Hx Hy].
  assert (js_get (mask s) y = Some row) as -> by (apply js_get_Some; split; [lia|done]).
  assert (js_get row x = Some (Some b)) as -> by (apply js_get_Some; split; [lia|done]).
  simpl. unfold js_set.
  apply lookup_lt_Some in Hc.
  destruct (Nat.ltb_spec (Z.to_nat x) (length row)); [done | lia].
Qed.

Lemma flipMask_out_of_range (s : state) (x y : Z) :
  ~ in_range s x y -> flipMask s x y = Normal s.
Proof.
  intros Hr. unfold flipMask. apply out_of_range_true in Hr. by rewrite Hr.
Qed.

Lemma row_ok_insert (n : Z) (row : list cell) (k : nat) (b : bool) :
  row_ok n row -> row_ok n (<[k := Some b]> row).
Proof.
  intros [Hl Hc]. split; [by rewrite length_insert|].
  by apply Forall_insert.
Qed.

Lemma flipMask_shape_ok (s s1 : state) (x y : Z) :
  shape_ok s -> flipMask s x y = Normal s1 ->
  shape_ok s1 /\ _size s1 = _size s.
Proof.
  intros Hs Hf.
  destruct (decide (in_range s x y)) as [Hr|Hr].
  - destruct (flipMask_in_range s x y Hs Hr) as (row & b & Hrow & Hc & E).
    rewrite E in Hf. injection Hf as <-. split; [|done].
    destruct Hs as [Hlen Hrows]. split; simpl.
    + by rewrite length_insert.
    + apply Forall_insert; [done|]. apply row_ok_insert.
      by apply (Forall_lookup_1 _ _ _ _ Hrows Hrow).
  - rewrite flipMask_out_of_range in Hf by done. by injection Hf as <-.
Qed.

Lemma cell_at_lookup (s : state) (x y : Z) (row : list cell) :
  0 <= x -> 0 <= y ->
  mask s !! Z.to_nat y = Some row ->
  cell_at s x y = default None (row !! Z.to_nat x).
Proof.
  intros Hx Hy Hrow. unfold cell_at.
  assert (js_get (mask s) y = Some row) as -> by (apply js_get_Some; done).
  unfold js_get. destruct (Z.ltb_spec x 0); [lia|].
  by destruct (row !! Z.to_nat x).
Qed.

(** An in-range [flipMask] negates cell [(x, y)] and leaves every other
    cell as it was. *)
Lemma flipMask_cells (s : state) (x y : Z) :
  shape_ok s -> in_range s x y ->
  exists s1,
    flipMask s x y = Normal s1
    /\ cell_at s1 x y = negb <$> cell_at s x y
    /\ (forall x' y', (x', y') <> (x, y) -> cell_at s1 x' y' = cell_at s x' y').
Proof.
  intros Hs Hr.
  destruct (flipMask_in_range s x y Hs Hr) as (row & b & Hrow & Hc & E).
  destruct Hr as [Hx Hy].
  pose proof (lookup_lt_Some _ _ _ Hrow) as Hylt.
  pose proof (lookup_lt_Some _ _ _ Hc) as Hxlt.
  eexists. split; [exact E|]. split.
  - rewrite (cell_at_lookup s x y row) by (done || lia).
    rewrite (cell_at_lookup _ x y (<[Z.to_nat x:=Some (negb b)]> row));
      [| lia | lia | by apply list_lookup_insert_eq].
    rewrite list_lookup_insert_eq by done. by rewrite Hc.
  - intros x' y' Hne. unfold cell_at. simpl.
    unfold js_get at 1 3.
    destruct (Z.ltb_spec y' 0) as [|Hy']; [done|].
    destruct (decide (Z.to_nat y = Z.to_nat y')) as [Ey|Ny].
    + assert (y' = y) as -> by lia.
      rewrite list_lookup_insert_eq, Hrow by done.
      unfold js_get. destruct (Z.ltb_spec x' 0) as [|Hx']; [done|].
      rewrite list_lookup_insert_ne; [done|].
      intros Ex. apply Hne. f_equal. lia.
    + by rewrite list_lookup_insert_ne.
Qed.

(** Flipping the same in-range cell twice gives the store back. *)
Lemma flipMask_twice (s : state) (x y : Z) :
  shape_ok s -> in_range s x y ->
  exists s1, flipMask s x y = Normal s1 /\ flipMask s1 x y = Normal s.
Proof.
  intros Hs Hr.
  destruct (flipMask_in_range s x y Hs Hr) as (row & b & Hrow & Hc & E).
  eexists. split; [exact E|].
  destruct (flipMask_shape_ok _ _ _ _ Hs E) as [Hs1 Hsz].
  assert (Hr1 : in_range
            (mkState (_size s)
               (<[Z.to_nat y:=<[Z.to_nat x:=Some (negb b)]> row]> (mask s)))
            x y) by exact Hr.
  destruct (flipMask_in_range _ x y Hs1 Hr1) as (row1 & b1 & Hrow1 & Hc1 & E1).
  rewrite E1. simpl in *.
  pose proof (lookup_lt_Some _ _ _ Hrow) as Hylt.
  pose proof (lookup_lt_Some _ _ _ Hc) as Hxlt.
  rewrite list_lookup_insert_eq in Hrow1 by done. injection Hrow1 as <-.
  rewrite list_lookup_insert_eq in Hc1 by done. injection Hc1 as <-.
  rewrite !list_insert_insert_eq, Bool.negb_involutive.
  rewrite (list_insert_id row) by done.
  rewrite (list_insert_id (mask s)) by done.
  by destruct s.
Qed.

(** *** [isAllMasked] *)

Lemma for_each_Next (l : list Z) (body : Z -> control) :
  for_each l body = Next <-> Forall (fun i => body i = Next) l.
Proof.
  induction l as [|i l IH]; simpl.
  - split; [constructor | done].
  - destruct (body i) eqn:E.
    + rewrite IH. split; [by constructor | by inversion 1].
    + split; [done | inversion 1; congruence].
    + split; [done | inversion 1; congruence].
Qed.

(** A loop whose body either goes on or returns [false] does the
    same. *)
Lemma for_each_Next_or_false (l : list Z) (body : Z -> control) :
  Forall (fun i => body i = Next \/ body i = Return false) l ->
  for_each l body = Next \/ for_each l body = Return false.
Proof.
  induction 1 as [|i l [E|E] Hl IH]; simpl.
  - by left.
  - by rewrite E.
  - rewrite E. by right.
Qed.

Lemma check_cell_in_range (s : state) (i j : Z) :
  shape_ok s -> in_range s j i ->
  exists b, cell_at s j i = Some b
            /\ check_cell s i j = if b then Return false else Next.
Proof.
  intros Hs Hr.
  destruct (shape_ok_cell s j i Hs Hr) as (row & b & Hrow & _ & Hc).
  destruct Hr as [Hj Hi]. exists b.
  rewrite (cell_at_lookup s j i row), Hc by (done || lia).
  split; [done|]. unfold check_cell.
  assert (js_get (mask s) i = Some row) as -> by (apply js_get_Some; split; [lia|done]).
  assert (js_get row j = Some (Some b)) as -> by (apply js_get_Some; split; [lia|done]).
  done.
Qed.

(** On a well-shaped store [isAllMasked] returns, and it returns [true]
    exactly when every cell in range holds [false]. *)
Lemma isAllMasked_cells (s : state) :
  shape_ok s ->
  (isAllMasked s = Normal true \/ isAllMasked s = Normal false)
  /\ (isAllMasked s = Normal true
      <-> forall x y, in_range s x y -> cell_at s x y = Some false).
Proof.
  intros Hs. unfold isAllMasked, for_indices.
  set (inner := fun i => for_each (seqZ 0 (cols (_size s))) (check_cell s i)).
  assert (Hinner : forall i, 0 <= i < rows (_size s) ->
            (inner i = Next \/ inner i = Return false)
            /\ (inner i = Next
                <-> forall j, 0 <= j < cols (_size s) -> cell_at s j i = Some false)).
  { intros i Hi. split.
    - apply for_each_Next_or_false. apply Forall_forall. intros j Hj.
      apply elem_of_seqZ in Hj.
      destruct (check_cell_in_range s i j Hs) as (b & _ & ->);
        [split; lia|]. destruct b; auto.
    - unfold inner. rewrite for_each_Next, Forall_forall.
      split.
      + intros H j Hj.
        destruct (check_cell_in_range s i j Hs) as (b & Hb & E); [split; lia|].
        rewrite H in E by (apply elem_of_seqZ; lia).
        rewrite Hb. by destruct b.
      + intros H j Hj. apply elem_of_seqZ in Hj.
        destruct (check_cell_in_range s i j Hs) as (b & Hb & E); [split; lia|].
        rewrite H in Hb by lia. injection Hb as <-. done. }
  assert (Houter : for_each (seqZ 0 (rows (_size s))) inner = Next
                   \/ for_each (seqZ 0 (rows (_size s))) inner = Return false).
  { apply for_each_Next_or_false. apply Forall_forall. intros i Hi.
    apply elem_of_seqZ in Hi. apply Hinner. lia. }
  split.
  - destruct Houter as [-> | ->]; auto.
  - transitivity (for_each (seqZ 0 (rows (_size s))) inner = Next).
    { destruct Houter as [-> | ->]; split; done. }
    rewrite for_each_Next, Forall_forall. split.
    + intros H x y [Hx Hy]. apply (Hinner y Hy); [|done].
      apply H, elem_of_seqZ. lia.
    + intros H i Hi. apply elem_of_seqZ in Hi.
      apply Hinner; [lia|]. intros j Hj. apply H. split; lia.
Qed.

(** In a well-shaped store the cells in range are all the cells. *)
Lemma all_false_cells (s : state) :
  shape_ok s ->
  all_false s <-> forall x y, in_range s x y -> cell_at s x y = Some false.
Proof.
  intros Hs. unfold all_false. split.
  - intros H x y Hr.
    destruct (shape_ok_cell s x y Hs Hr) as (row & b & Hrow & _ & Hc).
    destruct Hr as [Hx Hy].
    rewrite (cell_at_lookup s x y row), Hc by (done || lia). simpl.
    pose proof (Forall_lookup_1 _ _ _ _ H Hrow) as Hr0.
    exact (Forall_lookup_1 _ _ _ _ Hr0 Hc).
  - intros H. destruct Hs as [Hlen Hrows].
    apply Forall_lookup. intros i row Hrow.
    apply Forall_lookup. intros j c Hc.
    pose proof (lookup_lt_Some _ _ _ Hrow) as Hi.
    pose proof (lookup_lt_Some _ _ _ Hc) as Hj.
    destruct (Forall_lookup_1 _ _ _ _ Hrows Hrow) as [Hrl _].
    specialize (H (Z.of_nat j) (Z.of_nat i)).
    rewrite (cell_at_lookup s _ _ row) in H by (rewrite ?Nat2Z.id; done || lia).
    rewrite Nat2Z.id, Hc in H. apply H. split; lia.
Qed.

(** *** [reset] *)

Lemma reset_fresh (s : state) :
  0 <= rows (_size s) -> 0 <= cols (_size s) ->
  reset s
  = Normal (mkState (_size s)
              (replicate (Z.to_nat (rows (_size s)))
                 (replicate (Z.to_nat (cols (_size s))) (Some false)))).
Proof.
  intros Hr Hc. unfold reset, fresh_mask, js_Array_fill.
  destruct (Z.leb_spec (rows (_size s)) 0) as [H0|H0].
  - by replace (rows (_size s)) with 0 by lia.
  - destruct (Z.ltb_spec (cols (_size s)) 0); [lia | done].
Qed.

Lemma shape_ok_fresh (sz : ItemSize) :
  0 <= rows sz -> 0 <= cols sz ->
  shape_ok (mkState sz (replicate (Z.to_nat (rows sz))
                          (replicate (Z.to_nat (cols sz)) (Some false)))).
Proof.
  intros Hr Hc. split; simpl.
  - rewrite length_replicate. lia.
  - apply Forall_replicate. split.
    + rewrite length_replicate. lia.
    + by apply Forall_replicate.
Qed.

Lemma shape_ok_size (s : state) :
  shape_ok s -> 0 <= rows (_size s) /\ (0 <= cols (_size s) \/ mask s = []).
Proof.
  intros [Hlen Hrows]. split; [lia|].
  destruct (mask s) as [|row m]; [by right|].
  left. apply Forall_cons in Hrows as [[Hl _] _]. lia.
Qed.

Lemma reset_shape_ok (s : state) :
  shape_ok s ->
  exists s', reset s = Normal s' /\ shape_ok s' /\ _size s' = _size s.
Proof.
  intros Hs. destruct (shape_ok_size s Hs) as [Hr [Hc|Hnil]].
  - eexists. split; [by apply reset_fresh|]. split; [|done].
    by apply shape_ok_fresh.
  - destruct Hs as [Hlen _]. rewrite Hnil in Hlen. simpl in Hlen.
    exists (mkState (_size s) []). unfold reset, fresh_mask.
    rewrite <- Hlen. simpl. split; [done|]. split; [|done].
    split; simpl; [done | constructor].
Qed.

(** *** The statements of the specification *)

(** C5. [flipMask] is an involution on the mask: on a store whose mask
    has the declared shape, two calls of [flipMask(x, y)] with the same
    in-range coordinates return normally and give the original store
    back; and on any store a call with out-of-range coordinates returns
    normally and leaves the store, hence every cell, as it was. *)
Theorem flipMask_involution (s : state) (x y : Z) :
  (shape_ok s -> in_range s x y ->
     exists s1, flipMask s x y = Normal s1 /\ flipMask s1 x y = Normal s)
  /\ (~ in_range s x y -> flipMask s x y = Normal s).
Proof.
  split.
  - apply flipMask_twice.
  - apply flipMask_out_of_range.
Qed.

Lemma flipMask_involution_witness :
  shape_ok initial /\ in_range initial 2 1 /\ ~ in_range initial 9 0
  /\ (exists s1, flipMask initial 2 1 = Normal s1
                 /\ flipMask s1 2 1 = Normal initial)
  /\ flipMask initial 9 0 = Normal initial.
Proof.
  assert (Hin : in_range initial 2 1) by (unfold in_range; simpl; lia).
  assert (Hout : ~ in_range initial 9 0) by (unfold in_range; simpl; lia).
  split; [exact shape_ok_initial|]. split; [exact Hin|]. split; [exact Hout|].
  split.
  - exact (proj1 (flipMask_involution initial 2 1) shape_ok_initial Hin).
  - exact (proj2 (flipMask_involution initial 9 0) Hout).
Defined.

(** C6. Whatever the mask holds, [reset()] on a store of declared size
    [rows] x [cols] (non-negative integers) returns normally, keeps the
    size and yields a store on which [isAllMasked()] returns [true]; and
    on a store whose mask has the declared shape, [isAllMasked()]
    returns a boolean, which is [true] if and only if every cell of the
    mask is [false]. *)
Theorem reset_isAllMasked (s : state) :
  (0 <= rows (_size s) -> 0 <= cols (_size s) ->
     exists s', reset s = Normal s' /\ _size s' = _size s
                /\ isAllMasked s' = Normal true)
  /\ (shape_ok s ->
        (isAllMasked s = Normal true \/ isAllMasked s = Normal false)
        /\ (isAllMasked s = Normal true <-> all_false s)).
Proof.
  split.
  - intros Hr Hc. eexists. split; [by apply reset_fresh|]. split; [done|].
    pose proof (shape_ok_fresh (_size s) Hr Hc) as Hs'.
    apply (isAllMasked_cells _ Hs'), (all_false_cells _ Hs').
    unfold all_false. simpl.
    apply Forall_replicate. by apply Forall_replicate.
  - intros Hs. split; [by apply isAllMasked_cells|].
    rewrite (all_false_cells s Hs). by apply isAllMasked_cells.
Qed.

Lemma reset_isAllMasked_witness :
  (exists s', reset (mkState (mkItemSize 2 3) [[Some true]; []; [None]])
              = Normal s'
              /\ _size s' = mkItemSize 2 3 /\ isAllMasked s' = Normal true)
  /\ shape_ok initial
  /\ (isAllMasked initial = Normal true <-> all_false initial).
Proof.
  split.
  - apply (proj1 (reset_isAllMasked
                    (mkState (mkItemSize 2 3) [[Some true]; []; [None]])));
      simpl; lia.
  - split; [exact shape_ok_initial|].
    exact (proj2 (proj2 (reset_isAllMasked initial) shape_ok_initial)).
Defined.

(** C10. On a store whose mask has the declared shape, [flipMask(x, y)]
    with in-range coordinates negates the cell [mask[y][x]] and leaves
    every other cell unchanged; and both [flipMask] (for any
    coordinates) and [reset] return normally and keep the invariant that
    the mask has exactly [rows] rows of [cols] booleans each, with the
    declared size unchanged. *)
Theorem flipMask_reset_frame (s : state) :
  shape_ok s ->
  (forall x y, in_range s x y ->
     exists s1,
       flipMask s x y = Normal s1
       /\ cell_at s1 x y = negb <$> cell_at s x y
       /\ (forall x' y', (x', y') <> (x, y) ->
             cell_at s1 x' y' = cell_at s x' y'))
  /\ (forall x y,
        exists s1, flipMask s x y = Normal s1
                   /\ shape_ok s1 /\ _size s1 = _size s)
  /\ (exists s2, reset s = Normal s2 /\ shape_ok s2 /\ _size s2 = _size s).
Proof.
  intros Hs. split; [|split].
  - intros x y Hr. by apply flipMask_cells.
  - intros x y.
    assert (exists s1, flipMask s x y = Normal s1) as [s1 E].
    { destruct (decide (in_range s x y)) as [Hr|Hr].
      - destruct (flipMask_in_range s x y Hs Hr) as (? & ? & _ & _ & E). eauto.
      - exists s. by apply flipMask_out_of_range. }
    exists s1. split; [done|]. by apply (flipMask_shape_ok s s1 x y).
  - by apply reset_shape_ok.
Qed.

Lemma flipMask_reset_frame_witness :
  shape_ok initial
  /\ (exists s1, flipMask initial 8 4 = Normal s1
                 /\ shape_ok s1 /\ _size s1 = _size initial)
  /\ (exists s2, reset initial = Normal s2
                 /\ shape_ok s2 /\ _size s2 = _size initial).
Proof.
  split; [exact shape_ok_initial|]. split.
  - exact (proj1 (proj2 (flipMask_reset_frame initial shape_ok_initial)) 8 4).
  - exact (proj2 (proj2 (flipMask_reset_frame initial shape_ok_initial))).
Defined.

End GridStoreFacts.

(** ** The result mapper *)

Section MapperFacts.
Import PanelGridContainer.

(** [Math.floor(a / b)] is the floor division of the integers. *)
Lemma Math_floor_div_Zdiv (a b : Z) : Math_floor_div a b = a / b.
Proof.
  unfold Math_floor_div.
  destruct b as [|p|p].
  - unfold Qdiv, Qinv, Qmult, inject_Z, Qfloor. simpl.
    by rewrite Z.mul_0_r, Z.div_0_r.
  - unfold Qdiv, Qinv, Qmult, inject_Z, Qfloor. simpl.
    by rewrite Z.mul_1_r.
  - unfold Qdiv, Qinv, Qmult, inject_Z, Qfloor. simpl.
    rewrite <- (Z.div_opp_opp a (Z.neg p)) by done.
    f_equal. lia.
Qed.

Lemma indexToRowCol_nonneg (g : GridStore.state) (index : Z) :
  0 < cols (GridStore.size g) -> 0 <= index ->
  indexToRowCol g index
  = (index / cols (GridStore.size g), index mod cols (GridStore.size g)).
Proof.
  intros Hc Hi. unfold indexToRowCol.
  rewrite Math_floor_div_Zdiv. f_equal.
  apply Z.rem_mod_nonneg; lia.
Qed.

(** C7. For a positive column count and a flat index with
    [0 <= index < rows * cols], [indexToRowCol] yields
    [row = floor(index / cols)] and [col = index mod cols]; [row] and
    [col] are in range, and [row * cols + col] is the index again. *)
Theorem indexToRowCol_inverse (g : GridStore.state) (index : Z) :
  0 < cols (GridStore.size g) ->
  0 <= index < rows (GridStore.size g) * cols (GridStore.size g) ->
  exists row col,
    indexToRowCol g index = (row, col)
    /\ row = index / cols (GridStore.size g)
    /\ col = index mod cols (GridStore.size g)
    /\ row * cols (GridStore.size g) <= index
       < (row + 1) * cols (GridStore.size g)
    /\ 0 <= row < rows (GridStore.size g)
    /\ 0 <= col < cols (GridStore.size g)
    /\ row * cols (GridStore.size g) + col = index.
Proof.
  intros Hc Hi.
  set (c := cols (GridStore.size g)) in *.
  set (r := rows (GridStore.size g)) in *.
  exists (index / c), (index mod c).
  split; [apply indexToRowCol_nonneg; lia|].
  pose proof (Z.div_mod index c ltac:(lia)) as Hdm.
  pose proof (Z.mod_pos_bound index c Hc) as Hm.
  assert (0 <= index / c) by (apply Z.div_pos; lia).
  assert (index / c < r) by (apply Z.div_lt_upper_bound; lia).
  repeat split; try done; try lia; nia.
Qed.

Lemma indexToRowCol_inverse_witness :
  exists row col,
    indexToRowCol GridStore.initial 31 = (row, col)
    /\ row = 3 /\ col = 4 /\ row * 9 + col = 31.
Proof.
  destruct (indexToRowCol_inverse GridStore.initial 31)
    as (row & col & E & Hr & Hc & _ & _ & _ & Hinv); [simpl; lia | simpl; lia |].
  exists row, col. simpl in *. repeat split; [exact E | | | exact Hinv].
  - rewrite Hr. reflexivity.
  - rewrite Hc. reflexivity.
Defined.

(** X12. The way back: the cell [(row, col)] has the flat index
    [row * cols + col]. *)
Lemma indexToRowCol_of_cell (g : GridStore.state) (row col : Z) :
  0 <= row -> 0 <= col < cols (GridStore.size g) ->
  indexToRowCol g (row * cols (GridStore.size g) + col) = (row, col).
Proof.
  intros Hr Hc. rewrite indexToRowCol_nonneg by nia.
  f_equal.
  - rewrite Z.div_add_l by lia. rewrite Z.div_small by lia. lia.
  - rewrite Z.add_comm, Z.mod_add by lia. apply Z.mod_small. lia.
Qed.

(** *** Lookups *)

Lemma getProbability_data_at g r i :
  getProbability g (Some r) i
  = data_at (probabilities r) (fst (indexToRowCol g i)) (snd (indexToRowCol g i)).
Proof. unfold getProbability. by destruct (indexToRowCol g i). Qed.

Lemma getEntropy_data_at g r i :
  getEntropy g (Some r) i
  = data_at (entropy r) (fst (indexToRowCol g i)) (snd (indexToRowCol g i)).
Proof. unfold getEntropy. by destruct (indexToRowCol g i). Qed.

(** [data_at] does plain array indexing and nothing else. *)
Lemma data_at_cases (grid : Grid.t Datum) (row col : Z) :
  data_at grid row col <> Throw MappingError
  /\ (data_at grid row col = Throw TypeError
      <-> js_get (Grid.data grid) row = None)
  /\ (data_at grid row col = Normal Undefined
      <-> exists r, js_get (Grid.data grid) row = Some r
                    /\ js_get r col = None)
  /\ (forall d, data_at grid row col = Normal (Value d)
      <-> exists r, js_get (Grid.data grid) row = Some r
                    /\ js_get r col = Some d).
Proof.
  unfold data_at.
  destruct (js_get (Grid.data grid) row) as [r|] eqn:Er.
  - destruct (js_get r col) as [d|] eqn:Ec.
    + repeat split; try done.
      * by intros (? & [= <-] & ?); congruence.
      * intros [= <-]. eauto.
      * intros (? & [= <-] & ?). congruence.
    + repeat split; try done.
      * eauto.
      * intros (? & [= <-] & ?). congruence.
  - repeat split; try done.
    + by intros (? & ? & ?).
    + by intros (? & ? & ?).
Qed.

Lemma data_at_matches (g : GridStore.state) (grid : Grid.t Datum) (row col : Z) :
  matches g grid ->
  0 <= row < rows (GridStore.size g) ->
  0 <= col < cols (GridStore.size g) ->
  exists d, data_at grid row col = Normal (Value d).
Proof.
  intros [Hlen Hrows] Hr Hc.
  destruct (js_get_in_range (Grid.data grid) row) as [r Er]; [lia|].
  apply js_get_Some in Er as Er'. destruct Er' as [_ Er'].
  pose proof (Forall_lookup_1 _ _ _ _ Hrows Er') as Hrl. cbv beta in Hrl.
  destruct (js_get_in_range r col) as [d Ed]; [lia|].
  exists d. unfold data_at. by rewrite Er, Ed.
Qed.

(** C1, as the code has it.  [getProbability] and [getEntropy] check no
    dimension and never fail with a [MappingError].  For a flat index
    of the mask ([0 <= i < rows * cols], [cols] positive) the lookup is
    the plain indexing [data[row][col]] with [row = floor(i / cols)]
    and [col = i mod cols]: on a grid whose data has the declared
    dimensions it returns the datum stored there; it throws a
    [TypeError] exactly when the data has no row [row]; and it returns
    [undefined], a read past the end of the row, exactly when that row
    exists and has no entry [col]. *)
Theorem lookup_unchecked (g : GridStore.state) (r : InferenceResult) (i : Z)
    (grid : Grid.t Datum) (out : completion (js_value Datum)) :
  (grid = probabilities r /\ out = getProbability g (Some r) i)
  \/ (grid = entropy r /\ out = getEntropy g (Some r) i) ->
  0 < cols (GridStore.size g) ->
  0 <= i < rows (GridStore.size g) * cols (GridStore.size g) ->
  let row := i / cols (GridStore.size g) in
  let col := i mod cols (GridStore.size g) in
  out <> Throw MappingError
  /\ (matches g grid ->
        exists rw d, Grid.data grid !! Z.to_nat row = Some rw
                     /\ rw !! Z.to_nat col = Some d
                     /\ out = Normal (Value d))
  /\ (out = Throw TypeError <-> Z.of_nat (length (Grid.data grid)) <= row)
  /\ (out = Normal Undefined
      <-> exists rw, Grid.data grid !! Z.to_nat row = Some rw
                     /\ Z.of_nat (length rw) <= col).
Proof.
  intros Hout Hc Hi row col.
  assert (exists row' col',
            indexToRowCol g i = (row', col')
            /\ row' = i / cols (GridStore.size g)
            /\ col' = i mod cols (GridStore.size g)
            /\ 0 <= row' < rows (GridStore.size g)
            /\ 0 <= col' < cols (GridStore.size g))
    as (row' & col' & E & Hrow & Hcol & Hr & Hcl).
  { exists (i / cols (GridStore.size g)), (i mod cols (GridStore.size g)).
    split; [apply indexToRowCol_nonneg; lia|].
    split; [done|]. split; [done|].
    split; [|apply Z.mod_pos_bound; lia].
    split; [apply Z.div_pos; lia | apply Z.div_lt_upper_bound; lia]. }
  assert (out = data_at grid row col) as ->.
  { destruct Hout as [[-> ->] | [-> ->]];
      rewrite ?getProbability_data_at, ?getEntropy_data_at, E; simpl;
      by rewrite Hrow, Hcol. }
  subst row' col'. fold row in Hr. fold col in Hcl.
  destruct (data_at_cases grid row col) as (Hne & Hte & Hun & Hval).
  split; [exact Hne|]. split; [|split].
  - intros Hm. destruct (data_at_matches g grid row col Hm Hr Hcl) as [d Hd].
    apply Hval in Hd as Hd'. destruct Hd' as (rw & Erw & Ed).
    apply js_get_Some in Erw as [_ Erw]. apply js_get_Some in Ed as [_ Ed].
    by exists rw, d.
  - rewrite Hte. unfold js_get.
    destruct (Z.ltb_spec row 0); [lia|].
    rewrite lookup_ge_None. lia.
  - rewrite Hun. split.
    + intros (rw & Erw & Ed). exists rw.
      apply js_get_Some in Erw as [_ Erw]. split; [done|].
      unfold js_get in Ed. destruct (Z.ltb_spec col 0); [lia|].
      apply lookup_ge_None in Ed. lia.
    + intros (rw & Erw & Hl). exists rw. split.
      * apply js_get_Some. split; [lia | done].
      * apply js_get_outside. lia.
Qed.

Lemma lookup_unchecked_witness :
  getProbability GridStore.initial (Some narrow_result) 17 <> Throw MappingError
  /\ (getProbability GridStore.initial (Some narrow_result) 17 = Normal Undefined
      <-> exists rw, Grid.data narrow !! Z.to_nat (17 / 9) = Some rw
                     /\ Z.of_nat (length rw) <= 17 mod 9).
Proof.
  destruct (lookup_unchecked GridStore.initial narrow_result 17 narrow
              (getProbability GridStore.initial (Some narrow_result) 17))
    as (H1 & _ & _ & H4).
  - left. split; reflexivity.
  - simpl. lia.
  - simpl. lia.
  - split; [exact H1 | exact H4].
Defined.

(** C1, as stated, fails: the response [narrow_result], whose rows have
    8 entries where the mask declares 9, makes the lookup at flat index
    8 read past the end of row 0 and return [undefined]; the response
    [short_result], with 4 rows where the mask declares 5, makes the
    lookup at flat index 44 throw a [TypeError].  Neither is a
    [MappingError]. *)
Lemma mismatch_not_MappingError :
  GridStore.shape_ok GridStore.initial
  /\ ~ matches GridStore.initial narrow
  /\ ~ matches GridStore.initial short
  /\ getProbability GridStore.initial (Some narrow_result) 8 = Normal Undefined
  /\ getEntropy GridStore.initial (Some narrow_result) 8 = Normal Undefined
  /\ getProbability GridStore.initial (Some short_result) 44 = Throw TypeError
  /\ getEntropy GridStore.initial (Some short_result) 44 = Throw TypeError
  /\ ~ mismatch_raises_MappingError.
Proof.
  assert (Hn : ~ matches GridStore.initial narrow).
  { intros [_ H]. apply Forall_cons in H as [H _]. simpl in H. lia. }
  assert (Hs : ~ matches GridStore.initial short).
  { intros [H _]. simpl in H. lia. }
  split; [exact shape_ok_initial|].
  repeat (split; [done || reflexivity|]).
  intros C.
  destruct (C GridStore.initial narrow_result 8 shape_ok_initial) as [C1 _].
  - by left.
  - simpl. lia.
  - discriminate C1.
Qed.

End MapperFacts.

(** ** The request orchestrator *)

Section PageFacts.
Import Page.

(** The callback clears the result on a fully revealed grid and never
    touches the waiting flag. *)
Lemma subscription_clears (g : GridStore.state) (v : view) :
  GridStore.isAllMasked g = Normal true ->
  estimates (subscription g v) = None.
Proof. intros H. unfold subscription. by rewrite H. Qed.

Lemma subscription_flag (g : GridStore.state) (v : view) :
  isShowWaitIndicator (subscription g v) = isShowWaitIndicator v.
Proof.
  unfold subscription. by destruct (GridStore.isAllMasked g) as [[|]|].
Qed.

(** An event that writes to the grid store ends with the callback run
    on the new store. *)
Lemma step_writes_grid (w : world) (e : event) :
  writes_grid w e = true ->
  step w e = notify (gridStore (step w e)) w.
Proof.
  destruct e as [|o|i| |c];
    unfold step, writes_grid, PanelGridContainer.handleClick; try done.
  - destruct (PanelGridContainer.indexToRowCol (gridStore w) i) as [row col].
    destruct (GridStore.out_of_range (gridStore w) col row); [done|].
    by destruct (GridStore.flipMask (gridStore w) col row).
  - by destruct (GridStore.reset (gridStore w)).
Qed.

(** C3. After every event that writes to the grid mask store (the
    write is followed by the subscription callback), if [isAllMasked()]
    is true on the new store then the displayed result is absent,
    whatever the page showed before and whether it was waiting or not;
    the waiting flag is left as it was. *)
Theorem subscription_clears_when_fully_revealed (w : world) (e : event) :
  writes_grid w e = true ->
  GridStore.isAllMasked (gridStore (step w e)) = Normal true ->
  estimates (page (step w e)) = None
  /\ isShowWaitIndicator (page (step w e)) = isShowWaitIndicator (page w).
Proof.
  intros Hw Hall. rewrite (step_writes_grid w e Hw). simpl.
  split; [by apply subscription_clears | apply subscription_flag].
Qed.

Lemma subscription_clears_when_fully_revealed_witness :
  estimates (page showing) <> None
  /\ isShowWaitIndicator (page showing) = true
  /\ estimates (page (step showing (Click 0))) = None
  /\ isShowWaitIndicator (page (step showing (Click 0))) = true.
Proof.
  split; [done|]. split; [done|].
  apply (subscription_clears_when_fully_revealed showing (Click 0));
    reflexivity.
Defined.

(** The callback only runs on a write to the grid store: a request that
    settles after the grid was fully revealed puts its result on
    display, and it stays until the next write. *)
Lemma late_result_is_shown (data : InferenceResult) :
  let w := run showing [Estimate; Click 0; Settle (Resolved data)] in
  GridStore.isAllMasked (gridStore w) = Normal true
  /\ estimates (page w) = Some data.
Proof. split; reflexivity. Qed.

(** C2, on the code.  When the request of an estimate action fails,
    the result shown before is still shown, but the waiting flag, which
    the action raised, is still raised: the assignment that lowers it
    comes after the [await] that throws. *)
Theorem requestInference_rejected (w : world) :
  let w' := step (step w Estimate) (Settle Rejected) in
  isShowWaitIndicator (page w') = true
  /\ estimates (page w') = estimates (page w)
  /\ snd (requestInference_resume Rejected (page (step w Estimate)))
     = Throw FetchError.
Proof. done. Qed.

(** The same on the page as it is mounted. *)
Lemma requestInference_rejected_initial :
  page (run initial [Estimate; Settle Rejected]) = mkView None true.
Proof. reflexivity. Qed.

(** A request that succeeds lowers the flag and shows the new result. *)
Lemma requestInference_resolved (w : world) (data : InferenceResult) :
  page (step (step w Estimate) (Settle (Resolved data)))
  = mkView (Some data) false.
Proof. done. Qed.

(** Every store the page can reach has a mask of the declared shape. *)
Lemma step_shape_ok (w : world) (e : event) :
  GridStore.shape_ok (gridStore w) -> GridStore.shape_ok (gridStore (step w e)).
Proof.
  intros Hs. destruct e as [|o|i| |c];
    unfold step, PanelGridContainer.handleClick; try done.
  - destruct (PanelGridContainer.indexToRowCol (gridStore w) i) as [row col].
    destruct (GridStore.out_of_range (gridStore w) col row); [done|].
    destruct (GridStore.flipMask (gridStore w) col row) as [g'|] eqn:E; [|done].
    simpl. by apply (flipMask_shape_ok _ _ _ _ Hs E).
  - destruct (reset_shape_ok _ Hs) as (s' & -> & Hs' & _). done.
Qed.

Lemma run_shape_ok (es : list event) :
  GridStore.shape_ok (gridStore (run initial es)).
Proof.
  unfold run. generalize shape_ok_initial.
  change GridStore.initial with (gridStore initial).
  generalize initial. induction es as [|e es IH]; intros w Hw; simpl.
  - done.
  - apply IH. by apply step_shape_ok.
Qed.

End PageFacts.

(** ** The panel *)

Section PanelFacts.
Import GridPanelItem.

(** *** Rounding *)

(** [Math.round(n / d)] on integers: the integer [k] with
    [k - 1/2 <= n / d < k + 1/2]. *)
Lemma Math_round_div (n : Z) (d : positive) :
  Math_round (inject_Z n / inject_Z (Z.pos d)) = (2 * n + Z.pos d) / (2 * Z.pos d).
Proof.
  unfold Math_round, Qdiv, Qinv, Qmult, Qplus, inject_Z, Qfloor. simpl.
  f_equal; lia.
Qed.

Lemma brightness_bounds (r g b : Z) :
  let n := r * 299 + g * 587 + b * 114 in
  1000 * brightness (r, g, b) - 500 <= n < 1000 * brightness (r, g, b) + 500.
Proof.
  intros n. unfold brightness. fold n.
  change (inject_Z 1000) with (inject_Z (Z.pos 1000)).
  rewrite Math_round_div.
  pose proof (Z.div_mod (2 * n + 1000) 2000 ltac:(lia)) as Hdm.
  pose proof (Z.mod_pos_bound (2 * n + 1000) 2000 ltac:(lia)) as Hm.
  change (2 * 1000) with 2000. lia.
Qed.

(** C8. For a present datum with colour [(R, G, B)], each channel in
    0..255, the brightness is [round((R*299 + G*587 + B*114) / 1000)],
    the integer nearest to the quotient with a tie going up, and lies in
    0..255; the text is black exactly when the brightness exceeds 125
    and white otherwise; white (255,255,255) gives black, black (0,0,0)
    gives white, a brightness of exactly 125 (as for (125,125,125))
    gives white; an absent datum gives black. *)
Theorem textColor_threshold (value : Q) (r g b : Z) :
  0 <= r <= 255 -> 0 <= g <= 255 -> 0 <= b <= 255 ->
  let n := r * 299 + g * 587 + b * 114 in
  let br := brightness (r, g, b) in
  1000 * br - 500 <= n < 1000 * br + 500
  /\ 0 <= br <= 255
  /\ textColor (Some (value, (r, g, b)))
     = (if 125 <? br then "black" else "white")
  /\ (textColor (Some (value, (r, g, b))) = "black" <-> 125 < br)
  /\ (textColor (Some (value, (r, g, b))) = "white" <-> br <= 125)
  /\ textColor (Some (value, (255, 255, 255))) = "black"
  /\ textColor (Some (value, (0, 0, 0))) = "white"
  /\ brightness (125, 125, 125) = 125
  /\ textColor (Some (value, (125, 125, 125))) = "white"
  /\ textColor None = "black".
Proof.
  intros Hr Hg Hb n br.
  pose proof (brightness_bounds r g b) as Hbr. fold n br in Hbr. cbv zeta in Hbr.
  split; [exact Hbr|]. split; [subst n; lia|].
  unfold textColor. fold br.
  split; [done|].
  destruct (Z.ltb_spec 125 br); repeat split; try done; try lia.
Qed.

Lemma textColor_threshold_witness :
  1000 * brightness (200, 100, 50) - 500 <= 200 * 299 + 100 * 587 + 50 * 114
       < 1000 * brightness (200, 100, 50) + 500
  /\ textColor (Some (1 # 2, (200, 100, 50))) = "white".
Proof.
  destruct (textColor_threshold (1 # 2) 200 100 50) as (H1 & _ & H3 & _);
    [lia | lia | lia |].
  split; [exact H1 | exact H3].
Defined.

(** *** Strings *)

Lemma string_app_cons (x : ascii) (a b : string) :
  String x a +:+ b = String x (a +:+ b).
Proof. reflexivity. Qed.

Lemma string_app_assoc (a b c : string) : (a +:+ b) +:+ c = a +:+ b +:+ c.
Proof.
  induction a as [|x a IH]; [done|].
  by rewrite !string_app_cons, IH.
Qed.

Lemma string_app_length (a b : string) :
  String.length (a +:+ b) = (String.length a + String.length b)%nat.
Proof.
  induction a as [|x a IH]; [done|].
  rewrite string_app_cons. simpl. by rewrite IH.
Qed.

Lemma substring_prefix (a b : string) :
  String.substring 0 (String.length a) (a +:+ b) = a.
Proof.
  induction a as [|x a IH]; [by destruct b|].
  rewrite string_app_cons. simpl. by rewrite IH.
Qed.

Lemma substring_whole (b : string) :
  String.substring 0 (String.length b) b = b.
Proof. induction b as [|y b IH]; simpl; [done | by rewrite IH]. Qed.

Lemma substring_suffix (a b : string) :
  String.substring (String.length a) (String.length b) (a +:+ b) = b.
Proof.
  induction a as [|x a IH]; [apply substring_whole|].
  rewrite string_app_cons. simpl. exact IH.
Qed.

(** The point goes before the last two characters. *)
Lemma insert_point_app (a : string) (d1 d2 : ascii) :
  insert_point (a +:+ String d1 (String d2 ""))
  = a +:+ "." +:+ String d1 (String d2 "").
Proof.
  unfold insert_point. rewrite string_app_length. simpl String.length.
  replace (String.length a + 2 - 2)%nat with (String.length a) by lia.
  rewrite substring_prefix.
  change 2%nat with (String.length (String d1 (String d2 ""))) at 1.
  by rewrite substring_suffix.
Qed.

(** *** Decimal digits *)

Lemma pretty_N_go_app (x : N) (s : string) :
  pretty_N_go x s = pretty_N_go x "" +:+ s.
Proof.
  revert s. induction (N.lt_wf_0 x) as [x _ IH]. intros s.
  destruct (decide (x = 0)%N) as [->|Hx].
  - by rewrite !pretty_N_go_0.
  - rewrite (pretty_N_go_step x s), (pretty_N_go_step x "") by lia.
    rewrite (IH (x `div` 10)%N) by (apply N.div_lt; lia).
    rewrite (IH (x `div` 10)%N ltac:(apply N.div_lt; lia) (String _ "")).
    by rewrite string_app_assoc.
Qed.

Lemma pretty_N_small (x : N) :
  (x < 10)%N -> pretty x = String (pretty_N_char x) "".
Proof.
  intros Hx. unfold pretty, pretty_N.
  destruct (decide (x = 0)%N) as [->|H0]; [done|].
  rewrite pretty_N_go_step by lia.
  rewrite N.div_small, N.mod_small by done.
  by rewrite pretty_N_go_0.
Qed.

Lemma pretty_N_large (x : N) :
  (10 <= x)%N ->
  pretty x = pretty (x `div` 10)%N +:+ String (pretty_N_char (x `mod` 10)) "".
Proof.
  intros Hx. unfold pretty, pretty_N.
  assert (x `div` 10 <> 0)%N as Hd.
  { intros E. apply N.div_small_iff in E; lia. }
  destruct (decide (x = 0)%N) as [->|H0]; [lia|].
  destruct (decide (x `div` 10 = 0)%N) as [?|_]; [done|].
  rewrite pretty_N_go_step by lia.
  apply pretty_N_go_app.
Qed.

Lemma pretty_Z_nonneg (n : Z) : 0 <= n -> pretty n = pretty (Z.to_N n).
Proof. intros Hn. destruct n as [|p|p]; [done | done | lia]. Qed.

Lemma pretty_Z_small (n : Z) :
  0 <= n < 10 -> pretty n = String (digit n) "".
Proof.
  intros Hn. rewrite pretty_Z_nonneg by lia.
  apply pretty_N_small. lia.
Qed.

Lemma pretty_Z_large (n : Z) :
  10 <= n -> pretty n = pretty (n / 10) +:+ String (digit (n mod 10)) "".
Proof.
  intros Hn. rewrite pretty_Z_nonneg by lia.
  rewrite (pretty_Z_nonneg (n / 10)) by (apply Z.div_pos; lia).
  rewrite pretty_N_large by lia. unfold digit.
  rewrite Z2N.inj_div, Z2N.inj_mod by lia. done.
Qed.

Lemma is_digit_digit (d : Z) : 0 <= d < 10 -> is_digit (digit d).
Proof.
  intros Hd.
  assert (d = 0 \/ d = 1 \/ d = 2 \/ d = 3 \/ d = 4 \/ d = 5 \/ d = 6
          \/ d = 7 \/ d = 8 \/ d = 9) as H by lia.
  unfold is_digit.
  repeat (destruct H as [-> | H]; [vm_compute; lia|]). subst d. vm_compute. lia.
Qed.

Lemma all_digits_app (a b : string) :
  all_digits a -> all_digits b -> all_digits (a +:+ b).
Proof.
  induction a as [|c a IH]; [done|].
  rewrite string_app_cons. simpl. intros [? ?] ?. auto.
Qed.

(** The decimal representation of a natural number is a non-empty
    string of digits. *)
Lemma pretty_Z_digits (n : Z) :
  0 <= n -> all_digits (pretty n) /\ pretty n <> "".
Proof.
  intros Hn.
  assert (forall (k : nat) (m : Z), 0 <= m < Z.of_nat k ->
            all_digits (pretty m) /\ pretty m <> "") as H.
  { induction k as [|k IH]; intros m Hm; [lia|].
    destruct (decide (m < 10)) as [Hs|Hl].
    - rewrite pretty_Z_small by lia. split; [|done].
      simpl. split; [apply is_digit_digit; lia | done].
    - rewrite pretty_Z_large by lia.
      assert (0 <= m / 10 < Z.of_nat k) as Hd.
      { split; [apply Z.div_pos; lia|].
        apply Z.div_lt_upper_bound; lia. }
      destruct (IH (m / 10) Hd) as [Hall Hne]. split.
      + apply all_digits_app; [done|]. simpl. split; [|done].
        apply is_digit_digit. apply Z.mod_pos_bound. lia.
      + destruct (pretty (m / 10)); [done|]. by rewrite string_app_cons. }
  apply (H (S (Z.to_nat n))). lia.
Qed.

(** The digits of [n], padded to three, split before the last two: the
    digits of [n / 100], then the tens and the units. *)
Lemma padded_digits (n : Z) :
  0 <= n ->
  (if (String.length (pretty n) <=? 2)%nat
   then zeros (3 - String.length (pretty n)) +:+ pretty n
   else pretty n)
  = pretty (n / 100)
    +:+ String (digit (n / 10 mod 10)) (String (digit (n mod 10)) "").
Proof.
  intros Hn.
  destruct (decide (n < 10)) as [H1|H1];
    [|destruct (decide (n < 100)) as [H2|H2]].
  - rewrite pretty_Z_small by lia. simpl.
    rewrite !Z.div_small by lia. rewrite Z.mod_0_l by lia.
    by rewrite (Z.mod_small n 10) by lia.
  - rewrite pretty_Z_large by lia.
    assert (0 <= n / 10 < 10) as Hd.
    { split; [apply Z.div_pos; lia | apply Z.div_lt_upper_bound; lia]. }
    rewrite (pretty_Z_small (n / 10)) by done. simpl.
    rewrite (Z.div_small n 100) by lia.
    rewrite (Z.mod_small (n / 10) 10) by done. done.
  - rewrite pretty_Z_large by lia.
    assert (10 <= n / 10) as Hd by (apply Z.div_le_lower_bound; lia).
    rewrite (pretty_Z_large (n / 10)) by done.
    rewrite Z.div_div by lia. change (10 * 10) with 100.
    rewrite string_app_assoc, !string_app_length. simpl.
    destruct (pretty_Z_digits (n / 100)) as [_ Hne].
    { apply Z.div_pos; lia. }
    destruct (pretty (n / 100)) as [|c w]; [done|]. simpl.
    destruct (Nat.leb_spec (String.length w + 2) 1); [lia|done].
Qed.

(** *** [toFixed(2)] and [label] *)

(** The sign that [toFixed] splits off leaves the absolute value. *)
Lemma toFixed_abs (x : Q) :
  (if negb (Qle_bool 0 x) then Qopp x else x) = Qabs x.
Proof.
  destruct x as [n d]. unfold Qle_bool, Qopp, Qabs. simpl.
  rewrite Z.mul_1_r. change (0 * Z.pos d) with 0.
  destruct (Z.leb_spec 0 n); simpl.
  - by rewrite Z.abs_eq.
  - by rewrite Z.abs_neq by lia.
Qed.

Lemma toFixed_2_fixed (x : Q) :
  (Qabs x < inject_Z (10 ^ 21))%Q ->
  let n := Qfloor (Qabs x * inject_Z 100 + (1 # 2)) in
  toFixed_2 x
  = Literal ((if Qle_bool 0 x then "" else "-")
             +:+ pretty (n / 100) +:+ "."
             +:+ String (digit (n / 10 mod 10)) (String (digit (n mod 10)) "")).
Proof.
  intros Hx n. unfold toFixed_2. rewrite toFixed_abs.
  destruct (Qle_bool (inject_Z (10 ^ 21)) (Qabs x)) eqn:E.
  { apply Qle_bool_iff in E. lra. }
  cbv zeta. fold n.
  assert (0 <= n) as Hn.
  { apply (Qfloor_resp_le 0). pose proof (Qabs_nonneg x).
    change (inject_Z 100) with 100%Q. lra. }
  rewrite (padded_digits n Hn), insert_point_app.
  by destruct (Qle_bool 0 x).
Qed.

Lemma toFixed_2_exponential (x : Q) :
  (inject_Z (10 ^ 21) <= Qabs x)%Q ->
  toFixed_2 x = Exponential (negb (Qle_bool 0 x)) (Qabs x).
Proof.
  intros Hx. unfold toFixed_2. rewrite toFixed_abs.
  apply Qle_bool_iff in Hx. by rewrite Hx.
Qed.

(** C9, as the code has it.  [label] is the empty string for an absent
    datum.  For a present datum whose value is below 10^21 in absolute
    value it is the value in fixed notation with exactly two digits
    after the point: a minus sign for a negative value, the decimal
    digits of [n / 100], the point, and the two digits of [n mod 100],
    where [n] is the integer nearest to 100 times the absolute value (a
    tie going up); so 0.5 gives ["0.50"] and 1 gives ["1.00"].  From
    10^21 on, [toFixed] gives what [Number::toString] gives, which is in
    exponential notation. *)
Theorem label_two_decimals (value : Q) (c : Color) :
  let n := Qfloor (Qabs value * inject_Z 100 + (1 # 2)) in
  ((Qabs value < inject_Z (10 ^ 21))%Q ->
     label (Some (value, c))
     = Literal ((if Qle_bool 0 value then "" else "-")
                +:+ pretty (n / 100) +:+ "."
                +:+ String (digit (n / 10 mod 10))
                      (String (digit (n mod 10)) ""))
     /\ two_decimals (label (Some (value, c)))
     /\ (inject_Z n - (1 # 2) <= Qabs value * inject_Z 100
         < inject_Z n + (1 # 2))%Q)
  /\ ((inject_Z (10 ^ 21) <= Qabs value)%Q ->
       label (Some (value, c))
       = Exponential (negb (Qle_bool 0 value)) (Qabs value))
  /\ label (Some (1 # 2, c)) = Literal "0.50"
  /\ label (Some (1%Q, c)) = Literal "1.00"
  /\ label None = Literal "".
Proof.
  intros n. split; [|split; [|by vm_compute]].
  - intros Hx. pose proof (toFixed_2_fixed value Hx) as E. fold n in E.
    cbv zeta in E. simpl label. rewrite E.
    assert (0 <= n) as Hn.
    { apply (Qfloor_resp_le 0). pose proof (Qabs_nonneg value).
      change (inject_Z 100) with 100%Q. lra. }
    split; [done|]. split.
    + destruct (pretty_Z_digits (n / 100)) as [Hall Hne];
        [apply Z.div_pos; lia|].
      exists (if Qle_bool 0 value then "" else "-"), (pretty (n / 100)),
        (digit (n / 10 mod 10)), (digit (n mod 10)).
      split; [destruct (Qle_bool 0 value); auto|].
      split; [done|]. split; [done|].
      split; [apply is_digit_digit, Z.mod_pos_bound; lia|].
      split; [apply is_digit_digit, Z.mod_pos_bound; lia|]. done.
    + pose proof (Qfloor_le (Qabs value * inject_Z 100 + (1 # 2))) as Hlo.
      pose proof (Qlt_floor (Qabs value * inject_Z 100 + (1 # 2))) as Hhi.
      fold n in Hlo, Hhi. rewrite inject_Z_plus in Hhi.
      change (inject_Z 1) with 1%Q in Hhi.
      set (q := (Qabs value * inject_Z 100)%Q) in *.
      set (k := inject_Z n) in *. split; lra.
  - intros Hx. simpl label. by apply toFixed_2_exponential.
Qed.

Lemma label_two_decimals_witness :
  label (Some (Qopp (1234567 # 1000), (0, 0, 0))) = Literal "-1234.57"
  /\ two_decimals (label (Some (Qopp (1234567 # 1000), (0, 0, 0))))
  /\ label (Some (inject_Z (3 * 10 ^ 21), (0, 0, 0)))
     = Exponential false (inject_Z (3 * 10 ^ 21)).
Proof.
  destruct (label_two_decimals (Qopp (1234567 # 1000)) (0, 0, 0)) as [H _].
  destruct H as (H1 & H2 & _); [by vm_compute|].
  destruct (label_two_decimals (inject_Z (3 * 10 ^ 21)) (0, 0, 0))
    as (_ & H & _).
  split; [exact H1|]. split; [exact H2|].
  apply H. by vm_compute.
Defined.

(** C9, as stated, fails: for the value 10^21 the label is what
    [Number::toString] gives (["1e+21"]), not a string with two digits
    after a decimal point. *)
Lemma label_huge_not_two_decimals :
  label (Some (inject_Z (10 ^ 21), (0, 0, 0)))
  = Exponential false (inject_Z (10 ^ 21))
  /\ ~ two_decimals (label (Some (inject_Z (10 ^ 21), (0, 0, 0)))).
Proof.
  assert (E : label (Some (inject_Z (10 ^ 21), (0, 0, 0)))
              = Exponential false (inject_Z (10 ^ 21))) by (by vm_compute).
  split; [exact E|].
  intros (sign & whole & d1 & d2 & _ & _ & _ & _ & _ & H).
  rewrite E in H. discriminate H.
Qed.

End PanelFacts.

(** * Further properties of the code *)

(** ** The accessors of the item inventory store *)

Section ItemStoreAccessors.
Import ItemStore.

Lemma js_get_insert_eq {A : Type} (arr : list A) (i : Z) (a : A) :
  0 <= i < Z.of_nat (length arr) ->
  js_get (<[Z.to_nat i := a]> arr) i = Some a.
Proof.
  intros Hi. apply js_get_Some. split; [lia|].
  apply list_lookup_insert_eq. lia.
Qed.

Lemma js_get_insert_ne {A : Type} (arr : list A) (i j : Z) (a : A) :
  0 <= i -> j <> i ->
  js_get (<[Z.to_nat i := a]> arr) j = js_get arr j.
Proof.
  intros Hi Hne. unfold js_get. destruct (Z.ltb_spec j 0); [done|].
  apply list_lookup_insert_ne. lia.
Qed.

(** X1. [setCount] then [getCount] gives the count back; the size of the
    slot, the other slots and the number of slots are untouched. *)
Theorem setCount_getCount (s : settings) (index n : Z) :
  0 <= index < Z.of_nat (length s) ->
  exists s',
    setCount s index n = Normal s'
    /\ getCount s' index = Normal n
    /\ getSize s' index = getSize s index
    /\ length s' = length s
    /\ (forall j, j <> index ->
          getCount s' j = getCount s j /\ getSize s' j = getSize s j).
Proof.
  intros Hi. destruct (js_get_in_range s index Hi) as [item E].
  exists (<[Z.to_nat index := mkItemSetting (size item) n]> s).
  unfold setCount, getCount, getSize, settings in *. rewrite E.
  rewrite js_get_insert_eq by done. simpl.
  split; [done|]. split; [done|]. split; [done|].
  split; [apply length_insert|].
  intros j Hj. by rewrite js_get_insert_ne by lia.
Qed.

Lemma setCount_getCount_witness :
  exists s', setCount initial 2 5 = Normal s' /\ getCount s' 2 = Normal 5.
Proof.
  destruct (setCount_getCount initial 2 5) as (s' & H1 & H2 & _);
    [simpl; lia|].
  exists s'. split; [exact H1 | exact H2].
Defined.

(** X2. [setSize] then [getSize] gives the size back; the count of the slot,
    the other slots and the number of slots are untouched. *)
Theorem setSize_getSize (s : settings) (index : Z) (sz : ItemSize) :
  0 <= index < Z.of_nat (length s) ->
  exists s',
    setSize s index sz = Normal s'
    /\ getSize s' index = Normal sz
    /\ getCount s' index = getCount s index
    /\ length s' = length s
    /\ (forall j, j <> index ->
          getCount s' j = getCount s j /\ getSize s' j = getSize s j).
Proof.
  intros Hi. destruct (js_get_in_range s index Hi) as [item E].
  exists (<[Z.to_nat index := mkItemSetting sz (count item)]> s).
  unfold setSize, getCount, getSize, settings in *. rewrite E.
  rewrite js_get_insert_eq by done. simpl.
  split; [done|]. split; [done|]. split; [done|].
  split; [apply length_insert|].
  intros j Hj. by rewrite js_get_insert_ne by lia.
Qed.

Lemma setSize_getSize_witness :
  exists s', setSize initial 3 (mkItemSize 2 4) = Normal s'
             /\ getSize s' 3 = Normal (mkItemSize 2 4).
Proof.
  destruct (setSize_getSize initial 3 (mkItemSize 2 4)) as (s' & H1 & H2 & _);
    [simpl; lia|].
  exists s'. split; [exact H1 | exact H2].
Defined.

(** X3. The four accessors throw a [TypeError] when the index is not a slot
    of the store, and only then. *)
Theorem accessors_TypeError (s : settings) (index : Z) :
  let outside := index < 0 \/ Z.of_nat (length s) <= index in
  (getSize s index = Throw TypeError <-> outside)
  /\ (getCount s index = Throw TypeError <-> outside)
  /\ (forall sz, setSize s index sz = Throw TypeError <-> outside)
  /\ (forall n, setCount s index n = Throw TypeError <-> outside).
Proof.
  intros outside. unfold getSize, getCount, setSize, setCount.
  destruct (decide (0 <= index < Z.of_nat (length s))) as [Hi|Hi].
  - destruct (js_get_in_range s index Hi) as [item ->].
    repeat split; intros; (done || (exfalso; unfold outside in *; lia)).
  - rewrite js_get_outside by lia.
    repeat split; intros; (done || (unfold outside; lia)).
Qed.

(** *** [toRectangleArray] for any counts *)

Lemma elem_of_copies (item : ItemSetting) (r : Rectangle) :
  r ∈ copies item <-> 0 < count item /\ r = rectangle_of item.
Proof.
  unfold copies. rewrite elem_of_replicate. split.
  - intros [-> H]. split; [lia | done].
  - intros [H ->]. split; [done | lia].
Qed.

Lemma elem_of_concat_copies (s : settings) (r : Rectangle) :
  r ∈ concat (map copies s)
  <-> exists item, item ∈ s /\ 0 < count item /\ r = rectangle_of item.
Proof.
  induction s as [|a s IH]; simpl.
  - split; [by intros ?%elem_of_nil | by intros (? & ?%elem_of_nil & _)].
  - rewrite elem_of_app, IH, elem_of_copies. split.
    + intros [[H ->] | (item & Hin & Hc & ->)].
      * exists a. split; [left | done].
      * exists item. split; [by right | done].
    + intros (item & Hin & Hc & ->).
      apply elem_of_cons in Hin as [-> | Hin]; [by left|].
      right. by exists item.
Qed.

(** X4. A rectangle is in the output exactly when it is
    [{ width: size.cols, height: size.rows }] of a setting whose count is
    positive: a setting with a zero or negative count contributes
    nothing. *)
Theorem toRectangleArray_elem_of (s : settings) (r : Rectangle) :
  r ∈ toRectangleArray s
  <-> exists item, item ∈ s /\ 0 < count item
                   /\ r = mkRectangle (cols (size item)) (rows (size item)).
Proof.
  rewrite toRectangleArray_concat, elem_of_concat_copies.
  split; intros (item & Hin & Hc & ->); by exists item.
Qed.

(** X5. The length of the output is the sum of the counts with every
    negative count taken as 0. *)
Theorem toRectangleArray_length_max (s : settings) :
  Z.of_nat (length (toRectangleArray s))
  = fold_right (fun item acc => Z.max 0 (count item) + acc) 0 s.
Proof.
  rewrite toRectangleArray_length.
  induction s as [|a s IH]; simpl; [done|].
  rewrite Nat2Z.inj_add, IH. lia.
Qed.

End ItemStoreAccessors.

(** ** The item selectors *)

Section SelectorFacts.
Import ItemStore.

Lemma sum_counts_bound (s : settings) (m : Z) :
  Forall (fun item => 0 <= count item <= m) s ->
  0 <= sum_counts s <= m * Z.of_nat (length s).
Proof.
  induction 1 as [|a s Ha Hs IH]; simpl; [lia|]. lia.
Qed.

(** X6. What one change of a selector of the first component does.  A
    change of the count selector stores the chosen value as the count of
    its setting, 0 included, and leaves its size alone; a change of the
    size selector stores the chosen preset as the size and leaves the
    count alone, so the number of rectangles stays the same. *)
Theorem handleSelectChange_effect (s : settings) (index k : Z) :
  0 <= index < Z.of_nat (length s) ->
  (exists s1,
     HiddenItemSetting.handleSelectChange s (mkChange index k numItems)
     = Normal s1
     /\ getCount s1 index = Normal k
     /\ getSize s1 index = getSize s index)
  /\ (forall sz, js_get HiddenItemSetting.presets k = Some sz ->
        exists s2,
          HiddenItemSetting.handleSelectChange s (mkChange index k itemSize)
          = Normal s2
          /\ getSize s2 index = Normal sz
          /\ getCount s2 index = getCount s index
          /\ length (toRectangleArray s2) = length (toRectangleArray s))
  /\ (js_get HiddenItemSetting.presets k = None ->
        HiddenItemSetting.handleSelectChange s (mkChange index k itemSize)
        = Normal s).
Proof.
  intros Hi. unfold HiddenItemSetting.handleSelectChange. simpl.
  split; [|split].
  - destruct (js_get_in_range s index Hi) as [item E].
    unfold setCount, getSize, getCount, settings in *. rewrite E.
    eexists. split; [done|].
    rewrite js_get_insert_eq by done. done.
  - intros sz ->.
    destruct (js_get_in_range s index Hi) as [item E].
    unfold setSize, getSize, getCount, settings in *. rewrite E.
    eexists. split; [done|].
    rewrite js_get_insert_eq by done. simpl. split; [done|]. split; [done|].
    rewrite !toRectangleArray_length.
    apply js_get_Some in E as [_ E].
    rewrite <- (take_drop_middle s (Z.to_nat index) item E) at 2.
    rewrite insert_take_drop by (apply lookup_lt_Some in E; done).
    rewrite !fold_right_app. done.
  - by intros ->.
Qed.

Lemma handleSelectChange_effect_witness :
  exists s1,
    HiddenItemSetting.handleSelectChange initial (mkChange 1 0 numItems)
    = Normal s1
    /\ getCount s1 1 = Normal 0.
Proof.
  destruct (handleSelectChange_effect initial 1 0) as [(s1 & H1 & H2 & _) _];
    [simpl; lia|].
  exists s1. split; [exact H1 | exact H2].
Defined.

(** The invariant the selectors of the first component keep. *)
Lemma offered_keeps (s : settings) (c : change) :
  HiddenItemSetting.offered c ->
  length s = 4%nat ->
  Forall (fun item => 0 <= count item <= 6
                      /\ 0 < rows (size item) /\ 0 < cols (size item)) s ->
  length (HiddenItemSetting.after_change s c) = 4%nat
  /\ Forall (fun item => 0 <= count item <= 6
                         /\ 0 < rows (size item) /\ 0 < cols (size item))
       (HiddenItemSetting.after_change s c).
Proof.
  intros [Hidx Hval] Hlen Hall.
  destruct c as [index k ty]. simpl in *.
  assert (Hi : 0 <= index < Z.of_nat (length s)) by lia.
  destruct (js_get_in_range s index Hi) as [item E].
  apply js_get_Some in E as E'. destruct E' as [_ E'].
  pose proof (Forall_lookup_1 _ _ _ _ Hall E') as (Hc & Hr & Hcl).
  unfold HiddenItemSetting.after_change, HiddenItemSetting.handleSelectChange.
  simpl. destruct ty.
  - destruct (js_get_in_range HiddenItemSetting.presets k Hval) as [sz Esz].
    rewrite Esz. unfold setSize, settings in *. rewrite E.
    split; [by rewrite length_insert|].
    apply Forall_insert; [done|]. simpl. split; [done|].
    apply js_get_Some in Esz as [_ Esz].
    assert (Forall (fun sz => 0 < rows sz /\ 0 < cols sz)
              HiddenItemSetting.presets) as Hp
      by (repeat constructor; simpl; lia).
    exact (Forall_lookup_1 _ _ _ _ Hp Esz).
  - unfold setCount, settings in *. rewrite E.
    split; [by rewrite length_insert|].
    apply Forall_insert; [done|]. simpl.
    unfold numItemOptions in Hval. apply elem_of_seqZ in Hval.
    split; [lia | done].
Qed.

(** X7. Whatever the user selects in the four selector pairs of the first
    component, the store keeps four settings with counts between 0 and 6
    and positive sizes; so [toRectangleArray] gives exactly as many
    rectangles as the counts add up to, at most 24, each of positive
    width and height. *)
Theorem selectors_keep_inventory (cs : list change) :
  Forall HiddenItemSetting.offered cs ->
  let s := HiddenItemSetting.after_changes cs initial in
  length s = 4%nat
  /\ Forall (fun item => 0 <= count item <= 6
                         /\ 0 < rows (size item) /\ 0 < cols (size item)) s
  /\ Z.of_nat (length (toRectangleArray s)) = sum_counts s
  /\ sum_counts s <= 24
  /\ Forall (fun r => 0 < width r /\ 0 < height r) (toRectangleArray s).
Proof.
  intros Hcs s.
  assert (length s = 4%nat
          /\ Forall (fun item => 0 <= count item <= 6
                       /\ 0 < rows (size item) /\ 0 < cols (size item)) s)
    as [Hlen Hall].
  { subst s. unfold HiddenItemSetting.after_changes.
    assert (length initial = 4%nat
            /\ Forall (fun item => 0 <= count item <= 6
                         /\ 0 < rows (size item) /\ 0 < cols (size item))
                 initial) as H0
      by (split; [done | repeat constructor; simpl; lia]).
    revert H0. generalize initial.
    induction Hcs as [|c cs Hc Hcs IH]; intros s0 [H1 H2]; [done|].
    simpl. apply IH. by apply offered_keeps. }
  split; [done|]. split; [done|].
  assert (Hcount : Forall (fun item => 0 <= count item <= 6) s).
  { eapply Forall_impl; [exact Hall|]. simpl. tauto. }
  split.
  - rewrite toRectangleArray_concat. apply length_concat_copies.
    eapply Forall_impl; [exact Hcount|]. simpl. lia.
  - pose proof (sum_counts_bound s 6 Hcount) as Hb. rewrite Hlen in Hb.
    split; [lia|].
    apply Forall_forall. intros r Hr.
    rewrite toRectangleArray_concat in Hr.
    apply elem_of_concat_copies in Hr as (item & Hin & _ & ->). simpl.
    rewrite Forall_forall in Hall. destruct (Hall item Hin) as (_ & ? & ?).
    done.
Qed.

Lemma selectors_keep_inventory_witness :
  let cs := [mkChange 0 3 numItems; mkChange 0 5 itemSize;
             mkChange 3 6 numItems; mkChange 0 0 numItems] in
  Forall HiddenItemSetting.offered cs
  /\ Z.of_nat (length (toRectangleArray
                         (HiddenItemSetting.after_changes cs initial)))
     = sum_counts (HiddenItemSetting.after_changes cs initial).
Proof.
  intros cs.
  assert (H : Forall HiddenItemSetting.offered cs).
  { repeat constructor; simpl; try lia;
      unfold numItemOptions; apply elem_of_seqZ; lia. }
  split; [exact H|].
  exact (proj1 (proj2 (proj2 (selectors_keep_inventory cs H)))).
Defined.

(** *** The second component *)

Lemma after_change2_nonzero (s : settings) (c : change) (i : nat) item :
  s !! i = Some item -> count item <> 0 ->
  exists item', HiddenItemSetting2.after_change s c !! i = Some item'
                /\ count item' <> 0
                /\ (type c = numItems -> value c = 0 -> item' = item).
Proof.
  intros Hi Hc. destruct c as [index k ty].
  unfold HiddenItemSetting2.after_change, HiddenItemSetting2.handleSelectChange.
  unfold setSize, setCount, settings in *. simpl.
  destruct ty.
  - destruct (js_get HiddenItemSetting2.presets k) as [sz|]; [|by eauto].
    destruct (js_get s index) as [it|] eqn:E; [|by eauto].
    apply js_get_Some in E as [_ E].
    destruct (decide (Z.to_nat index = i)) as [<-|Hne].
    + rewrite list_lookup_insert_eq by (by apply lookup_lt_Some in E).
      eexists. split; [done|]. simpl. split; [congruence | done].
    + rewrite list_lookup_insert_ne by done. eauto.
  - destruct (Z.eqb_spec k 0) as [->|Hk]; [by eauto|].
    destruct (js_get s index) as [it|] eqn:E; [|by exists item].
    apply js_get_Some in E as [_ E].
    destruct (decide (Z.to_nat index = i)) as [<-|Hne].
    + rewrite list_lookup_insert_eq by (by apply lookup_lt_Some in E).
      eexists. split; [done|]. simpl. split; [done | done].
    + rewrite list_lookup_insert_ne by done. exists item. done.
Qed.

(** X8. In the second component the handler tests [if (count)], so choosing
    0 never reaches the store: the change leaves the store as it was,
    and a setting whose count is not 0 keeps a count that is not 0
    whatever is selected afterwards. *)
Theorem zero_count_never_stored (cs : list change) (s : settings)
    (i : nat) (item : ItemSetting) :
  s !! i = Some item -> count item <> 0 ->
  (forall index, HiddenItemSetting2.handleSelectChange s
                   (mkChange index 0 numItems) = Normal s)
  /\ exists item', HiddenItemSetting2.after_changes cs s !! i = Some item'
                   /\ count item' <> 0.
Proof.
  intros Hi Hc. split; [done|].
  revert s item Hi Hc. induction cs as [|c cs IH]; intros s item Hi Hc.
  - by exists item.
  - simpl.
    destruct (after_change2_nonzero s c i item Hi Hc) as (item' & Hi' & Hc' & _).
    by apply (IH _ item').
Qed.

Lemma zero_count_never_stored_witness :
  exists item',
    HiddenItemSetting2.after_changes
      [mkChange 0 0 numItems; mkChange 0 1 itemSize; mkChange 0 0 numItems]
      (<[0%nat := mkItemSetting (mkItemSize 1 2) 3]> initial) !! 0%nat
    = Some item'
    /\ count item' <> 0.
Proof.
  apply (zero_count_never_stored _ _ 0%nat (mkItemSetting (mkItemSize 1 2) 3)).
  - reflexivity.
  - simpl. lia.
Defined.

End SelectorFacts.

(** ** The panels and the mask *)

Section PanelGridFacts.
Import GridStore PanelGridContainer.

Lemma concat_lookup_uniform {A : Type} (l : list (list A)) (c i j : nat) :
  Forall (fun r => length r = c) l -> (j < c)%nat ->
  concat l !! (i * c + j)%nat = l !! i ≫= (fun r => r !! j).
Proof.
  intros Hl Hj. revert i. induction Hl as [|r l Hr Hl IH]; intros i.
  - done.
  - destruct i as [|i]; simpl.
    + rewrite lookup_app_l by lia. done.
    + rewrite lookup_app_r by lia.
      replace (c + i * c + j - length r)%nat with (i * c + j)%nat by lia.
      apply IH.
Qed.

Lemma concat_length_uniform {A : Type} (l : list (list A)) (c : nat) :
  Forall (fun r => length r = c) l -> length (concat l) = (length l * c)%nat.
Proof.
  induction 1 as [|r l Hr Hl IH]; simpl; [done|].
  rewrite length_app, IH. lia.
Qed.

(** A row without holes is its booleans. *)
Lemma omap_id_full (row : list (option bool)) :
  Forall (fun c => c <> None) row ->
  length (omap id row) = length row
  /\ forall j, row !! j = Some <$> (omap id row !! j).
Proof.
  induction 1 as [|c row Hc Hrow [IHl IHj]]; simpl.
  - split; [done|]. by intros [|j].
  - destruct c as [b|]; [|done].
    change (list_omap (option bool) bool id row) with (omap id row).
    simpl. split; [by rewrite IHl|].
    intros [|j]; [done|]. apply IHj.
Qed.

Lemma isOpen_rows (g : state) :
  shape_ok g ->
  Forall (fun r => length r = Z.to_nat (cols (_size g)))
    (map (omap id) (mask g)).
Proof.
  intros [_ Hrows]. apply Forall_map.
  eapply Forall_impl; [exact Hrows|]. intros row [Hl Hc].
  destruct (omap_id_full row Hc) as [E _]. simpl. rewrite E. lia.
Qed.

Lemma isOpen_cell (g : state) (row col : Z) :
  shape_ok g ->
  0 <= row < rows (_size g) -> 0 <= col < cols (_size g) ->
  js_get (isOpen g) (row * cols (_size g) + col) = cell_at g col row
  /\ is_Some (cell_at g col row).
Proof.
  intros Hs Hr Hc.
  destruct (shape_ok_cell g col row Hs) as (rw & b & Hrw & [_ Hfull] & Hb);
    [split; lia|].
  rewrite (cell_at_lookup g col row rw), Hb by (done || lia). simpl.
  split; [|by eexists].
  apply js_get_Some. split; [nia|].
  replace (Z.to_nat (row * cols (_size g) + col))
    with (Z.to_nat row * Z.to_nat (cols (_size g)) + Z.to_nat col)%nat by nia.
  unfold isOpen.
  rewrite (concat_lookup_uniform _ _ _ _ (isOpen_rows g Hs)) by lia.
  rewrite list_lookup_fmap, Hrw. simpl.
  destruct (omap_id_full rw Hfull) as [_ Hj]. specialize (Hj (Z.to_nat col)).
  rewrite Hb in Hj. destruct (omap id rw !! Z.to_nat col); by simplify_eq/=.
Qed.

Lemma isOpen_length (g : state) :
  shape_ok g ->
  Z.of_nat (length (isOpen g)) = rows (_size g) * cols (_size g).
Proof.
  intros Hs. unfold isOpen.
  rewrite (concat_length_uniform _ _ (isOpen_rows g Hs)).
  rewrite length_map. destruct Hs as [Hlen Hrows].
  destruct (mask g) as [|rw m] eqn:Em; simpl in *; [lia|].
  apply Forall_cons in Hrows as [[Hl _] _]. nia.
Qed.

Lemma isOpen_at (g : state) (i : Z) :
  shape_ok g -> 0 < cols (_size g) ->
  0 <= i < rows (_size g) * cols (_size g) ->
  indexToRowCol g i = (i / cols (_size g), i mod cols (_size g))
  /\ in_range g (i mod cols (_size g)) (i / cols (_size g))
  /\ js_get (isOpen g) i
     = cell_at g (i mod cols (_size g)) (i / cols (_size g))
  /\ is_Some (js_get (isOpen g) i).
Proof.
  intros Hs Hc Hi.
  set (c := cols (_size g)) in *.
  pose proof (Z.div_mod i c ltac:(lia)) as Hdm.
  pose proof (Z.mod_pos_bound i c Hc) as Hm.
  assert (0 <= i / c) by (apply Z.div_pos; lia).
  assert (i / c < rows (_size g)) by (apply Z.div_lt_upper_bound; lia).
  split; [apply indexToRowCol_nonneg; simpl; fold c; lia|].
  split; [split; fold c; lia|].
  destruct (isOpen_cell g (i / c) (i mod c) Hs) as [E Hsome]; [lia | lia |].
  fold c in E. replace (i / c * c + i mod c) with i in E by lia.
  split; [exact E | by rewrite E].
Qed.

(** X9. [isOpen] lists the mask in the order of the flat panel indices: it
    has [rows * cols] entries, and entry [i] is the cell [mask[row][col]]
    that [indexToRowCol] gives for [i]. *)
Theorem isOpen_indexToRowCol (g : state) (i : Z) :
  shape_ok g ->
  Z.of_nat (length (isOpen g)) = rows (_size g) * cols (_size g)
  /\ (0 < cols (_size g) -> 0 <= i < rows (_size g) * cols (_size g) ->
        js_get (isOpen g) i
        = cell_at g (snd (indexToRowCol g i)) (fst (indexToRowCol g i))
        /\ is_Some (js_get (isOpen g) i)).
Proof.
  intros Hs. split; [by apply isOpen_length|].
  intros Hc Hi. destruct (isOpen_at g i Hs Hc Hi) as (-> & _ & E & Hsome).
  done.
Qed.

Lemma isOpen_indexToRowCol_witness :
  js_get (isOpen initial) 44
  = cell_at initial (snd (indexToRowCol initial 44))
      (fst (indexToRowCol initial 44)).
Proof.
  destruct (isOpen_indexToRowCol initial 44 shape_ok_initial) as [_ H].
  destruct H as [H _]; [simpl; lia | simpl; lia |]. exact H.
Defined.

(** X10. A click on panel [i], for a flat index of the mask, negates entry
    [i] of [isOpen] and leaves every other entry alone; a second click on
    the same panel gives the store back. *)
Theorem handleClick_toggles_panel (g : state) (i : Z) :
  shape_ok g -> 0 < cols (_size g) ->
  0 <= i < rows (_size g) * cols (_size g) ->
  exists g1,
    handleClick g i = Normal g1
    /\ js_get (isOpen g1) i = negb <$> js_get (isOpen g) i
    /\ (forall j, j <> i -> js_get (isOpen g1) j = js_get (isOpen g) j)
    /\ handleClick g1 i = Normal g.
Proof.
  intros Hs Hc Hi.
  destruct (isOpen_at g i Hs Hc Hi) as (Eidx & Hr & Hat & _).
  set (c := cols (_size g)) in *.
  destruct (flipMask_cells g (i mod c) (i / c) Hs Hr) as (g1 & E & Hcell & Hframe).
  destruct (flipMask_shape_ok g g1 _ _ Hs E) as [Hs1 Hsz].
  destruct (flipMask_twice g (i mod c) (i / c) Hs Hr) as (g1' & E' & Eback).
  rewrite E in E'. injection E' as <-.
  assert (Hc1 : 0 < cols (_size g1)) by (by rewrite Hsz).
  assert (Hi1 : 0 <= i < rows (_size g1) * cols (_size g1)) by (by rewrite Hsz).
  destruct (isOpen_at g1 i Hs1 Hc1 Hi1) as (Eidx1 & _ & Hat1 & _).
  rewrite Hsz in Eidx1, Hat1. fold c in Eidx1, Hat1.
  exists g1. unfold handleClick. rewrite Eidx, Eidx1.
  split; [exact E|].
  split; [by rewrite Hat, Hat1|]. split; [|exact Eback].
  intros j Hj.
  destruct (decide (0 <= j < rows (_size g) * c)) as [Hjr|Hjr].
  - destruct (isOpen_at g j Hs Hc Hjr) as (_ & _ & Hj0 & _).
    assert (Hjr1 : 0 <= j < rows (_size g1) * cols (_size g1))
      by (by rewrite Hsz).
    destruct (isOpen_at g1 j Hs1 Hc1 Hjr1) as (_ & _ & Hj1 & _).
    rewrite Hsz in Hj1. fold c in Hj0, Hj1.
    rewrite Hj0, Hj1. apply Hframe.
    intros [= Em Ed]. apply Hj.
    pose proof (Z.div_mod j c ltac:(lia)).
    pose proof (Z.div_mod i c ltac:(lia)). lia.
  - pose proof (isOpen_length g Hs) as Hl.
    pose proof (isOpen_length g1 Hs1) as Hl1. rewrite Hsz in Hl1.
    fold c in Hl, Hl1.
    rewrite !js_get_outside; [done | lia | lia].
Qed.

Lemma handleClick_toggles_panel_witness :
  exists g1,
    handleClick initial 13 = Normal g1
    /\ js_get (isOpen g1) 13 = negb <$> js_get (isOpen initial) 13.
Proof.
  destruct (handleClick_toggles_panel initial 13 shape_ok_initial)
    as (g1 & H1 & H2 & _); [simpl; lia | simpl; lia |].
  exists g1. split; [exact H1 | exact H2].
Defined.

(** X11. A click with an index that is not a flat index of the mask changes
    nothing and does not throw. *)
Theorem handleClick_outside (g : state) (i : Z) :
  0 < cols (_size g) ->
  i < 0 \/ rows (_size g) * cols (_size g) <= i ->
  handleClick g i = Normal g.
Proof.
  intros Hc Hi. unfold handleClick, indexToRowCol. simpl.
  rewrite Math_floor_div_Zdiv. apply flipMask_out_of_range.
  unfold in_range. intros [_ [Hr1 Hr2]].
  destruct Hi as [Hi|Hi].
  - assert (i / cols (_size g) < 0) by (apply Z.div_lt_upper_bound; lia). lia.
  - assert (rows (_size g) <= i / cols (_size g))
      by (apply Z.div_le_lower_bound; lia). lia.
Qed.

Lemma handleClick_outside_witness :
  handleClick initial 45 = Normal initial
  /\ handleClick initial (-1) = Normal initial.
Proof.
  split; apply handleClick_outside; simpl; lia.
Defined.

Lemma indexToRowCol_of_cell_witness :
  indexToRowCol initial (3 * 9 + 4) = (3, 4).
Proof. apply (indexToRowCol_of_cell initial 3 4); simpl; lia. Defined.

End PanelGridFacts.

(** ** The page over time *)

Section PageTraces.
Import Page.

Lemma step_size (w : world) (e : event) :
  GridStore.shape_ok (gridStore w) ->
  GridStore._size (gridStore (step w e)) = GridStore._size (gridStore w).
Proof.
  intros Hs. destruct e as [|o|i| |c];
    unfold step, PanelGridContainer.handleClick; try done.
  - destruct (PanelGridContainer.indexToRowCol (gridStore w) i) as [row col].
    destruct (GridStore.out_of_range (gridStore w) col row); [done|].
    destruct (GridStore.flipMask (gridStore w) col row) as [g'|] eqn:E; [|done].
    simpl. by apply (flipMask_shape_ok _ _ _ _ Hs E).
  - destruct (reset_shape_ok _ Hs) as (s' & -> & _ & Hsz). done.
Qed.

Lemma step_inventory_length (w : world) (e : event) :
  length (itemStore (step w e)) = length (itemStore w).
Proof.
  destruct e as [|o|i| |c]; unfold step; try done.
  - destruct (PanelGridContainer.indexToRowCol (gridStore w) i) as [row col].
    destruct (GridStore.out_of_range (gridStore w) col row); [done|].
    by destruct (PanelGridContainer.handleClick (gridStore w) i).
  - by destruct (GridStore.reset (gridStore w)).
  - simpl. unfold ItemStore.after_call.
    destruct c as [index n|index sz];
      unfold ItemStore.setCount, ItemStore.setSize, ItemStore.settings in *;
      destruct (js_get (itemStore w) index); try done;
      apply length_insert.
Qed.

Lemma run_invariant (es : list event) :
  GridStore.shape_ok (gridStore (run initial es))
  /\ GridStore._size (gridStore (run initial es)) = mkItemSize 5 9
  /\ length (itemStore (run initial es)) = 4%nat.
Proof.
  unfold run.
  assert (GridStore.shape_ok (gridStore initial)
          /\ GridStore._size (gridStore initial) = mkItemSize 5 9
          /\ length (itemStore initial) = 4%nat) as H0
    by (split; [exact shape_ok_initial | done]).
  revert H0. generalize initial.
  induction es as [|e es IH]; intros w0 (H1 & H2 & H3); [done|].
  simpl. apply IH. split; [by apply step_shape_ok|].
  split; [by rewrite step_size | by rewrite step_inventory_length].
Qed.

(** X13. Whatever happens to the page, the grid store keeps the size 5 x 9
    and a mask of 5 rows of 9 booleans, [isOpen] has an entry for each of
    the 45 panels of the template, and the item store keeps its four
    settings. *)
Theorem page_keeps_shape (es : list event) :
  let w := run initial es in
  GridStore.shape_ok (gridStore w)
  /\ GridStore._size (gridStore w) = mkItemSize 5 9
  /\ length (PanelGridContainer.isOpen (gridStore w)) = 45%nat
  /\ length (itemStore w) = 4%nat.
Proof.
  intros w. destruct (run_invariant es) as (Hs & Hsz & Hl). fold w in Hs, Hsz, Hl.
  split; [done|]. split; [done|]. split; [|done].
  pose proof (isOpen_length (gridStore w) Hs) as Hlen.
  rewrite Hsz in Hlen. simpl in Hlen. lia.
Qed.

(** X14. The request of every estimate action carries a well-formed mask:
    declared 5 x 9, with 5 rows of 9 booleans and no hole; and the action
    itself changes neither store nor the result on display. *)
Theorem request_is_well_formed (es : list event) :
  let w := run initial es in
  let p := snd (requestInference_call w) in
  Grid.rows (mask p) = 5 /\ Grid.cols (mask p) = 9
  /\ length (Grid.data (mask p)) = 5%nat
  /\ Forall (fun r => length r = 9%nat /\ Forall (fun c => c <> None) r)
       (Grid.data (mask p))
  /\ rectangles p = ItemStore.toRectangleArray (itemStore w)
  /\ gridStore (step w Estimate) = gridStore w
  /\ itemStore (step w Estimate) = itemStore w
  /\ estimates (page (step w Estimate)) = estimates (page w).
Proof.
  intros w p. destruct (run_invariant es) as (Hs & Hsz & _).
  fold w in Hs, Hsz. subst p. simpl. rewrite Hsz. simpl.
  destruct Hs as [Hlen Hrows]. rewrite Hsz in Hlen, Hrows. simpl in *.
  split; [done|]. split; [done|]. split; [lia|]. split; [|done].
  eapply Forall_impl; [exact Hrows|]. intros r [Hl Hc]. split; [lia | done].
Qed.

(** X15. With a response whose two grids have the dimensions of the mask,
    the lookups of all 45 panels return a datum: rendering a well-formed
    response never throws and never yields [undefined]. *)
Theorem lookups_succeed_on_matching_response
    (es : list event) (r : InferenceResult) (i : Z) :
  let g := gridStore (run initial es) in
  PanelGridContainer.matches g (probabilities r) ->
  PanelGridContainer.matches g (entropy r) ->
  0 <= i < 45 ->
  (exists d, PanelGridContainer.getProbability g (Some r) i = Normal (Value d))
  /\ (exists d, PanelGridContainer.getEntropy g (Some r) i = Normal (Value d)).
Proof.
  intros g Hp He Hi.
  destruct (run_invariant es) as (_ & Hsz & _). fold g in Hsz.
  assert (Hc : cols (GridStore.size g) = 9) by (simpl; by rewrite Hsz).
  assert (Hr : rows (GridStore.size g) = 5) by (simpl; by rewrite Hsz).
  assert (E : PanelGridContainer.indexToRowCol g i = (i / 9, i mod 9)).
  { rewrite indexToRowCol_nonneg by lia. by rewrite Hc. }
  assert (0 <= i / 9 < 5)
    by (split; [apply Z.div_pos; lia | apply Z.div_lt_upper_bound; lia]).
  pose proof (Z.mod_pos_bound i 9 ltac:(lia)).
  rewrite getProbability_data_at, getEntropy_data_at, E. simpl.
  split; eapply data_at_matches; eauto; lia.
Qed.

Lemma lookups_succeed_on_matching_response_witness :
  exists d,
    PanelGridContainer.getProbability
      (gridStore (run initial [Click 3; Estimate]))
      (Some (mkInferenceResult
               (Grid.mk 5 9 (replicate 5 (replicate 9 (1 # 4, (10, 20, 30)))))
               (Grid.mk 5 9 (replicate 5 (replicate 9 (3 # 4, (1, 2, 3)))))))
      44
    = Normal (Value d).
Proof.
  apply (lookups_succeed_on_matching_response [Click 3; Estimate]).
  - split; [reflexivity|]. simpl. repeat constructor.
  - split; [reflexivity|]. simpl. repeat constructor.
  - lia.
Defined.

(** X16. Hiding a cell never discards the result: a click on a panel whose
    cell is open leaves the result on display as it was, and the grid is
    not fully revealed afterwards. *)
Theorem hiding_keeps_result (w : world) (i : Z) :
  GridStore.shape_ok (gridStore w) ->
  0 < cols (GridStore._size (gridStore w)) ->
  0 <= i < rows (GridStore._size (gridStore w))
           * cols (GridStore._size (gridStore w)) ->
  js_get (PanelGridContainer.isOpen (gridStore w)) i = Some false ->
  page (step w (Click i)) = page w
  /\ GridStore.isAllMasked (gridStore (step w (Click i))) = Normal false
  /\ js_get (PanelGridContainer.isOpen (gridStore (step w (Click i)))) i
     = Some true.
Proof.
  intros Hs Hc Hi Hopen.
  destruct (isOpen_at _ i Hs Hc Hi) as (Eidx & Hr & Hat & _).
  set (c := cols (GridStore._size (gridStore w))) in *.
  destruct (flipMask_cells _ (i mod c) (i / c) Hs Hr) as (g1 & E & Hcell & _).
  destruct (flipMask_shape_ok _ _ _ _ Hs E) as [Hs1 Hsz].
  rewrite <- Hat, Hopen in Hcell. simpl in Hcell.
  assert (Hc1 : 0 < cols (GridStore._size g1)) by (by rewrite Hsz).
  assert (Hi1 : 0 <= i < rows (GridStore._size g1) * cols (GridStore._size g1))
    by (by rewrite Hsz).
  destruct (isOpen_at g1 i Hs1 Hc1 Hi1) as (_ & Hr1 & Hat1 & _).
  rewrite Hsz in Hr1, Hat1. fold c in Hr1, Hat1.
  assert (Hfalse : GridStore.isAllMasked g1 = Normal false).
  { destruct (isAllMasked_cells g1 Hs1) as [[Ht|Hf] Hiff]; [|done].
    exfalso. pose proof (proj1 Hiff Ht (i mod c) (i / c)) as Hall.
    rewrite Hcell in Hall. by specialize (Hall ltac:(split; rewrite Hsz; apply Hr)). }
  unfold step, PanelGridContainer.handleClick. rewrite Eidx.
  apply out_of_range_false in Hr as Hg. rewrite Hg, E.
  simpl. unfold subscription. rewrite Hfalse.
  split; [done|]. split; [done|]. by rewrite Hat1.
Qed.

Lemma hiding_keeps_result_witness :
  page (step initial (Click 7)) = page initial
  /\ GridStore.isAllMasked (gridStore (step initial (Click 7))) = Normal false.
Proof.
  destruct (hiding_keeps_result initial 7) as (H1 & H2 & _).
  - exact shape_ok_initial.
  - simpl. lia.
  - simpl. lia.
  - reflexivity.
  - split; [exact H1 | exact H2].
Defined.

(** X17. A reset always brings the grid store back to its initial state and
    clears the result on display; the waiting flag and the item store
    are left alone. *)
Theorem reset_click_restores (es : list event) :
  let w := run initial es in
  step w ResetClick
  = mkWorld (mkView None (isShowWaitIndicator (page w)))
      GridStore.initial (itemStore w).
Proof.
  intros w. destruct (run_invariant es) as (_ & Hsz & _). fold w in Hsz.
  assert (E : GridStore.reset (gridStore w) = Normal GridStore.initial).
  { rewrite reset_fresh by (rewrite Hsz; simpl; lia). by rewrite Hsz. }
  assert (Hall : GridStore.isAllMasked GridStore.initial = Normal true)
    by (by vm_compute).
  unfold step. rewrite E. unfold notify, subscription. by rewrite Hall.
Qed.

(** X18. Only a successful response lowers the waiting flag: once raised, it
    stays raised through clicks, resets, inventory changes, further
    estimate actions and failed requests. *)
Theorem waiting_flag_stays (w : world) (es : list event) :
  isShowWaitIndicator (page w) = true ->
  Forall (fun e => forall data, e <> Settle (Resolved data)) es ->
  isShowWaitIndicator (page (run w es)) = true.
Proof.
  intros Hw Hes. revert w Hw. unfold run.
  induction Hes as [|e es He Hes IH]; intros w Hw; [done|].
  simpl. apply IH.
  destruct e as [|[data|]|i| |c]; unfold step; try done.
  - by destruct (He data).
  - destruct (PanelGridContainer.indexToRowCol (gridStore w) i) as [row col].
    destruct (GridStore.out_of_range (gridStore w) col row); [done|].
    destruct (PanelGridContainer.handleClick (gridStore w) i); [|done].
    simpl. by rewrite subscription_flag.
  - destruct (GridStore.reset (gridStore w)); [|done].
    simpl. by rewrite subscription_flag.
Qed.

Lemma waiting_flag_stays_witness :
  isShowWaitIndicator
    (page (run (step initial Estimate)
             [Settle Rejected; Click 4; ResetClick; Estimate; Settle Rejected]))
  = true.
Proof.
  apply waiting_flag_stays; [reflexivity|].
  repeat constructor; intros data; discriminate.
Defined.

End PageTraces.

(** ** What the panel shows *)

Section PanelTexts.
Import GridPanelItem.

(** X19. Brightening a colour never turns black text into white: the
    brightness grows with each channel, so a colour that gets black text
    keeps it when any channel is raised. *)
Theorem textColor_monotone (v v' : Q) (r g b r' g' b' : Z) :
  r <= r' -> g <= g' -> b <= b' ->
  brightness (r, g, b) <= brightness (r', g', b')
  /\ (textColor (Some (v, (r, g, b))) = "black" ->
      textColor (Some (v', (r', g', b'))) = "black").
Proof.
  intros Hr Hg Hb.
  assert (Hle : brightness (r, g, b) <= brightness (r', g', b')).
  { unfold brightness.
    change (inject_Z 1000) with (inject_Z (Z.pos 1000)).
    rewrite !Math_round_div. apply Z.div_le_mono; lia. }
  split; [exact Hle|]. unfold textColor.
  destruct (Z.ltb_spec 125 (brightness (r, g, b))); [|done].
  destruct (Z.ltb_spec 125 (brightness (r', g', b'))); [done | lia].
Qed.

Lemma textColor_monotone_witness :
  brightness (100, 150, 100) <= brightness (120, 150, 255)
  /\ textColor (Some (0%Q, (120, 150, 255))) = "black".
Proof.
  destruct (textColor_monotone 0 0 100 150 100 120 150 255) as [H1 H2];
    [lia | lia | lia |].
  split; [exact H1 | apply H2; reflexivity].
Defined.

(** X20. A negative value that rounds to zero keeps its minus sign: the label
    of a value between -0.005 and 0 is ["-0.00"], that of a value from 0
    up to 0.005 is ["0.00"]. *)
Theorem label_rounds_to_zero (v : Q) (c : Color) :
  ((- (1 # 200) < v)%Q -> (v < 0)%Q -> label (Some (v, c)) = Literal "-0.00")
  /\ ((0 <= v)%Q -> (v < 1 # 200)%Q -> label (Some (v, c)) = Literal "0.00").
Proof.
  assert (Hzero : forall x : Q, (- (1 # 200) < x)%Q -> (x < 1 # 200)%Q ->
            (Qabs x < inject_Z (10 ^ 21))%Q
            /\ Qfloor (Qabs x * inject_Z 100 + (1 # 2)) = 0).
  { intros x Hlo Hhi.
    assert (Ha : (Qabs x < 1 # 200)%Q) by (by apply Qabs_Qlt_condition).
    pose proof (Qabs_nonneg x) as Hn.
    split.
    { eapply Qlt_trans; [exact Ha | by vm_compute]. }
    set (q := (Qabs x * inject_Z 100 + (1 # 2))%Q).
    assert (H1 : (0 <= q)%Q)
      by (subst q; change (inject_Z 100) with 100%Q; lra).
    assert (H2 : (q < inject_Z 1)%Q)
      by (subst q; change (inject_Z 100) with 100%Q;
          change (inject_Z 1) with 1%Q; lra).
    pose proof (Qfloor_resp_le 0 q H1) as Hge. change (Qfloor 0) with 0 in Hge.
    pose proof (Qfloor_le q) as Hfl.
    assert (Hlt : (inject_Z (Qfloor q) < inject_Z 1)%Q)
      by (eapply Qle_lt_trans; [exact Hfl | exact H2]).
    rewrite <- Zlt_Qlt in Hlt. lia. }
  split.
  - intros Hlo Hhi. destruct (Hzero v Hlo) as [Hb Hn]; [lra|].
    simpl label. rewrite (toFixed_2_fixed v Hb). cbv zeta. rewrite Hn.
    assert (Qle_bool 0 v = false) as ->.
    { destruct (Qle_bool 0 v) eqn:E; [|done].
      apply Qle_bool_iff in E. lra. }
    reflexivity.
  - intros Hlo Hhi. destruct (Hzero v) as [Hb Hn]; [lra | lra |].
    simpl label. rewrite (toFixed_2_fixed v Hb). cbv zeta. rewrite Hn.
    assert (Qle_bool 0 v = true) as -> by (by apply Qle_bool_iff).
    reflexivity.
Qed.

Lemma label_rounds_to_zero_witness :
  label (Some (Qopp (1 # 1000), (0, 0, 0))) = Literal "-0.00"
  /\ label (Some (1 # 1000, (0, 0, 0))) = Literal "0.00".
Proof.
  destruct (label_rounds_to_zero (Qopp (1 # 1000)) (0, 0, 0)) as [H1 _].
  destruct (label_rounds_to_zero (1 # 1000) (0, 0, 0)) as [_ H2].
  split; [apply H1 | apply H2]; by vm_compute.
Defined.

(** *** Numbers in strings *)

Lemma occurs_app (c : ascii) (a b : string) :
  occurs c (a +:+ b) <-> occurs c a \/ occurs c b.
Proof.
  induction a as [|x a IH]; [simpl; tauto|].
  rewrite string_app_cons. simpl. rewrite IH. tauto.
Qed.

Lemma all_digits_occurs (c : ascii) (s : string) :
  all_digits s -> occurs c s -> is_digit c.
Proof.
  induction s as [|x s IH]; simpl; [done|].
  intros [Hx Hs] [-> | Hc]; auto.
Qed.

(** The decimal representation of an integer consists of digits and,
    in front, a minus sign. *)
Lemma pretty_Z_occurs (c : ascii) (z : Z) :
  occurs c (pretty z) -> is_digit c \/ c = "-"%char.
Proof.
  destruct z as [|p|p].
  - intros H. left. apply (all_digits_occurs c (pretty 0)); [|done].
    by apply pretty_Z_digits.
  - intros H. left. apply (all_digits_occurs c (pretty (Z.pos p))); [|done].
    apply pretty_Z_digits. lia.
  - change (pretty (Z.neg p)) with ("-" +:+ pretty (Z.pos p)).
    rewrite occurs_app. simpl. intros [[H|[]] | H]; [by right|].
    left. apply (all_digits_occurs c (pretty (Z.pos p))); [|done].
    apply pretty_Z_digits. lia.
Qed.

Lemma pretty_Z_free (c : ascii) (z : Z) :
  ~ is_digit c -> c <> "-"%char -> ~ occurs c (pretty z).
Proof. intros Hd Hm H. by destruct (pretty_Z_occurs c z H). Qed.

(** Two strings cut at the first occurrence of a separator agree part
    by part. *)
Lemma app_separator_inj (c : ascii) (a a' r r' : string) :
  ~ occurs c a -> ~ occurs c a' ->
  a +:+ String c r = a' +:+ String c r' -> a = a' /\ r = r'.
Proof.
  revert a'. induction a as [|x a IH]; intros [|x' a'] Ha Ha' E.
  - by injection E as ->.
  - rewrite string_app_cons in E. injection E as -> _.
    destruct Ha'. by left.
  - rewrite string_app_cons in E. injection E as -> _.
    destruct Ha. by left.
  - rewrite !string_app_cons in E. injection E as -> E.
    destruct (IH a') as [-> ->]; [| |done|done].
    + intros H. apply Ha. by right.
    + intros H. apply Ha'. by right.
Qed.

(** X21. [backgroundColor] is the empty string for an absent datum only, and
    two colours (integer channels that print in decimal, as those in
    0..255 do) give the same string only when they are the same
    colour. *)
Theorem backgroundColor_inj (v v' : Q) (r g b r' g' b' : Z) :
  Forall prints_in_decimal [r; g; b; r'; g'; b'] ->
  backgroundColor None = ""
  /\ backgroundColor (Some (v, (r, g, b))) <> ""
  /\ (backgroundColor (Some (v, (r, g, b)))
      = backgroundColor (Some (v', (r', g', b'))) ->
      (r, g, b) = (r', g', b')).
Proof.
  intros _.
  split; [done|]. split; [done|]. unfold backgroundColor.
  intros E. apply (inj (String.append "rgb(")) in E.
  assert (Hsep : forall R, ", " +:+ R = String "," (String " " R)) by done.
  rewrite !Hsep in E.
  assert (Hc : forall z : Z, ~ occurs "," (pretty z)).
  { intros z. apply pretty_Z_free; [vm_compute; lia | done]. }
  assert (Hp : forall z : Z, ~ occurs ")" (pretty z)).
  { intros z. apply pretty_Z_free; [vm_compute; lia | done]. }
  apply app_separator_inj in E as [Er E]; [|done|done].
  injection E as E.
  apply app_separator_inj in E as [Eg E]; [|done|done].
  injection E as E.
  change ")" with (String ")" "") in E.
  apply app_separator_inj in E as [Eb _]; [|done|done].
  apply (inj pretty) in Er, Eg, Eb. by subst.
Qed.

Lemma backgroundColor_inj_witness :
  backgroundColor (Some (1 # 2, (12, 0, 255))) = "rgb(12, 0, 255)"
  /\ (12, 0, 255) = (12, 0, 255).
Proof.
  split; [reflexivity|].
  apply (proj2 (proj2 (backgroundColor_inj (1 # 2) (1 # 3) 12 0 255 12 0 255
                         ltac:(repeat constructor; by vm_compute)))).
  reflexivity.
Defined.

(** X22. Two sizes (integer dimensions that print in decimal) have the same
    label only when they are the same size. *)
Theorem toLabel_inj (sz sz' : ItemSize) :
  Forall prints_in_decimal [rows sz; cols sz; rows sz'; cols sz'] ->
  toLabel sz = toLabel sz' -> sz = sz'.
Proof.
  intros _.
  destruct sz as [r c], sz' as [r' c']. unfold toLabel. simpl. intros E.
  assert (Hs : forall z : Z, ~ occurs " " (pretty z)).
  { intros z. apply pretty_Z_free; [vm_compute; lia | done]. }
  assert (Hsep : forall R, " × " +:+ R = String " " ("× " +:+ R)) by done.
  rewrite !Hsep in E.
  apply app_separator_inj in E as [Er E]; [|done|done].
  apply (inj (String.append "× ")) in E.
  apply (inj pretty) in Er, E. by subst.
Qed.

Lemma toLabel_inj_witness :
  toLabel (mkItemSize 2 1) = "2 × 1" /\ mkItemSize 2 1 = mkItemSize 2 1.
Proof.
  split; [reflexivity|].
  apply (toLabel_inj (mkItemSize 2 1) (mkItemSize 2 1)).
  - repeat constructor; by vm_compute.
  - reflexivity.
Defined.

(** *** The display mode *)

(** X23. Each press of the button switches the panel to the other datum, and
    two presses restore the mode. *)
Theorem handleDisplayModeChange_toggles (s : DisplayModeStore.state)
    (probablity entropy : option Datum) :
  let s' := DisplayModeButton.handleDisplayModeChange s in
  DisplayModeButton.handleDisplayModeChange s' = s
  /\ DisplayModeStore.mode s' <> DisplayModeStore.mode s
  /\ panelData (DisplayModeStore.mode s') probablity entropy
     = panelData (DisplayModeStore.mode s) entropy probablity
  /\ DisplayModeButton.text s' <> DisplayModeButton.text s.
Proof. by destruct s as [[|]]. Qed.

End PanelTexts.
